(** * FlatPlateSurrogate: the surrogate-based flat-plate collector block

    A shallow embedding of
    [watertap_contrib/seto/solar_models/surrogate/flat_plate/flat_plate_surrogate.py]
    and the properties of its three methods [build],
    [calculate_scaling_factors] and [initialize_build].

    The block is glue over Pyomo/IDAES.  The part written in the file is
    embedded statement by statement; what it calls in the host framework is
    either a field of the class [Host] (the base-class [build], the decoder
    of the surrogate artifact, the binding of the surrogate to its
    variables, the unit registry) or, for the small [iscale] and [os.path]
    helpers, a definition that follows their documented behaviour. *)

From Stdlib Require Import String Ascii List ZArith QArith Qminmax Lia.
From stdpp Require Import base option list gmap strings.
Import ListNotations.

Local Open Scope string_scope.
Local Open Scope Q_scope.

(** ** Values *)

(** The members of [pyomo.environ.units] the file names. *)
Inductive pyunit := MW | hour | C | kWh | year.

(** [Var(initialize=..., bounds=..., units=..., doc=...)]; an argument that
    is not passed is [None]. *)
Record Var := mkVar {
  initialize : option Q;
  bounds : option (Q * Q);
  units : option pyunit;
  doc : string
}.

(** Expressions over the block's own variables, as far as [build] writes
    them.  [ERef n] is [self.n]; [EConvert v u to_units] is
    [pyunits.convert(v * u, to_units=to_units)]. *)
Inductive Expr :=
| ERef (name : string)
| EConvert (v : Q) (u to_units : pyunit)
| EMul (a b : Expr).

(** [Constraint(expr= lhs == rhs)]. *)
Record Constraint := mkConstraint { lhs : Expr; rhs : Expr }.

(** A trained regression model as [PysmoSurrogate.load_from_file] returns
    it: its labels, the bounds of its inputs where the artifact records
    them ([input_bounds()], one pair per input label, here in the order of
    the labels), and the function it computes. *)
Record Surrogate := mkSurrogate {
  sur_input_labels : list string;
  sur_output_labels : list string;
  sur_input_bounds : option (list (Q * Q));
  sur_predict : list Q → list Q
}.

(** [SurrogateBlock(concrete=True)]; [sb_model] is [None] until
    [build_model] has bound a surrogate to input and output variables
    (held by reference, that is by attribute name). *)
Record SurrogateBlock := mkSurrogateBlock {
  sb_model : option Surrogate;
  sb_inputs : list string;
  sb_outputs : list string
}.

(** What an attribute of the block can hold. *)
Inductive Attr :=
| AVar (v : Var)
| AConstraint (c : Constraint)
| AStr (s : string)
| ANum (q : Q)
| ARefs (names : list string)    (* a list of the block's own variables *)
| ALabels (labels : list string) (* a list of str *)
| ASurrogate (s : Surrogate)
| ASurrogateBlock (sb : SurrogateBlock)
| ANone.

(** The block: its attributes, and the [scaling_factor] suffix that
    [iscale] keeps on it ([None] while the block has no such suffix). *)
Record Block := mkBlock {
  attrs : gmap string Attr;
  scaling_factor : option (gmap string Q)
}.

(** ** The world around the block *)

(** A text stream object: one that existed before, or an [io.StringIO]
    buffer numbered by its allocation. *)
Inductive stream :=
| TextIO (fd : nat)
| StringIO (id : nat).

Inductive exn :=
| AttributeError (name : string)
| TypeError (what : string)
| FileNotFoundError (path : string)
| HostError (tag : string).

(** Calls into the host framework, recorded in the order they happen. *)
Inductive Event :=
| load_from_file_call (path : string)
| build_model_call (inputs outputs : list string)
| get_scaling_factor_call (c : string) (default : option Q) (warning : bool)
| set_scaling_factor_call (c : string) (v : Q)
| log_warning (c : string).

Record State := mkState {
  self : Block;
  sys_stdout : stream;            (* the global [sys.stdout] *)
  next_obj : nat;                 (* number of [StringIO] objects so far *)
  files : gmap string string;     (* file system: path to content *)
  cwd : string;                   (* current working directory *)
  trace : list Event
}.

Definition with_self (f : Block → Block) (s : State) : State :=
  mkState (f (self s)) (sys_stdout s) (next_obj s) (files s) (cwd s) (trace s).

Definition with_stdout (st : stream) (s : State) : State :=
  mkState (self s) st (next_obj s) (files s) (cwd s) (trace s).

Definition with_cwd (d : string) (s : State) : State :=
  mkState (self s) (sys_stdout s) (next_obj s) (files s) d (trace s).

Definition record (ev : Event) (s : State) : State :=
  mkState (self s) (sys_stdout s) (next_obj s) (files s) (cwd s)
          (trace s ++ [ev]).

(** ** Statements: state passing with exceptions

    A statement runs from a state to a result and a state; an exception
    ends the run and keeps the state reached when it was raised. *)
Inductive Result (A : Type) :=
| Ok (a : A)
| Raise (e : exn).
Arguments Ok {A} a.
Arguments Raise {A} e.

Definition M (A : Type) : Type := State → Result A * State.

Definition run {A} (m : M A) (s : State) : Result A * State := m s.

Definition ret {A} (a : A) : M A := λ s, (Ok a, s).

Definition raise {A} (e : exn) : M A := λ s, (Raise e, s).

Definition bind {A B} (m : M A) (k : A → M B) : M B :=
  λ s, match m s with
       | (Ok a, s') => k a s'
       | (Raise e, s') => (Raise e, s')
       end.

Declare Scope py_scope.
Delimit Scope py_scope with py.
Notation "x <- m ;; k" := (bind m (λ x, k))
  (at level 100, m at next level, right associativity) : py_scope.
Notation "m ;; k" := (bind m (λ _, k))
  (at level 100, right associativity) : py_scope.
Local Open Scope py_scope.

Definition modify (f : State → State) : M unit := λ s, (Ok tt, f s).

(** [self.name = v] *)
Definition setattr (name : string) (v : Attr) : M unit :=
  modify (with_self (λ b, mkBlock (<[name := v]> (attrs b)) (scaling_factor b))).

(** An object read off the block: the attribute it was read from, which
    stands for its identity, and what it is. *)
Definition obj : Type := string * Attr.

(** [self.name]: whatever the attribute holds, [AttributeError] when the
    block has no such attribute.  The read makes no test of what it
    finds. *)
Definition self_attr (name : string) : M obj :=
  λ s, match attrs (self s) !! name with
       | Some x => (Ok (name, x), s)
       | None => (Raise (AttributeError name), s)
       end.

(** An object as an operand of [*] or [==] in a constraint expression.
    The file writes its two constraints over variables: those it has
    declared itself and the two of the base class.  A variable stands for
    itself in the expression; an attribute that holds anything else is not
    something the file provides for, and the expression over it is taken
    to end in a [TypeError]. *)
Definition as_operand (c : obj) : M Expr :=
  match c.2 with
  | AVar _ => ret (ERef c.1)
  | _ => raise (TypeError c.1)
  end.

(** [StringIO()]: a new buffer. *)
Definition new_StringIO : M stream :=
  λ s, (Ok (StringIO (next_obj s)),
        mkState (self s) (sys_stdout s) (S (next_obj s)) (files s) (cwd s)
                (trace s)).

Definition get_sys_stdout : M stream := λ s, (Ok (sys_stdout s), s).

Definition set_sys_stdout (st : stream) : M unit := modify (with_stdout st).

(** ** [os.path] (POSIX flavour) *)

Definition is_sep (c : ascii) : bool := Ascii.eqb c "/"%char.

(** [p.rfind("/") + 1] *)
Fixpoint rfind_sep_succ (p : string) : nat :=
  match p with
  | EmptyString => 0%nat
  | String c r =>
      match rfind_sep_succ r with
      | O => if is_sep c then 1%nat else 0%nat
      | S k => S (S k)
      end
  end.

(** [head == "/" * len(head)] *)
Fixpoint all_sep (p : string) : bool :=
  match p with
  | EmptyString => true
  | String c r => is_sep c && all_sep r
  end.

(** [p.rstrip("/")] *)
Fixpoint rstrip_sep (p : string) : string :=
  match p with
  | EmptyString => EmptyString
  | String c r =>
      match rstrip_sep r with
      | EmptyString => if is_sep c then EmptyString else String c EmptyString
      | r' => String c r'
      end
  end.

Definition dirname (p : string) : string :=
  let i := rfind_sep_succ p in
  let head := substring 0 i p in
  if negb (String.eqb head EmptyString) && negb (all_sep head)
  then rstrip_sep head else head.

Fixpoint endswith_sep (p : string) : bool :=
  match p with
  | EmptyString => false
  | String c EmptyString => is_sep c
  | String _ r => endswith_sep r
  end.

Definition startswith_sep (p : string) : bool :=
  match p with
  | String c _ => is_sep c
  | EmptyString => false
  end.

(** [os.path.join(a, b)] *)
Definition path_join (a b : string) : string :=
  if startswith_sep b then b
  else if String.eqb a EmptyString || endswith_sep a then a ++ b
  else a ++ "/" ++ b.

(** ** The host framework *)

Class Host := {
  (** [__file__] of the module *)
  module_file : string;
  (** [SolarEnergyBase.build], reached through [super().build()] *)
  super_build : M unit;
  (** [PysmoSurrogate.load]: decodes the text of a surrogate artifact *)
  PysmoSurrogate_load : string → Result Surrogate;
  (** the checks [SurrogateBlock.build_model] and the surrogate make of
      the given input and output variables *)
  populate_block : Surrogate → list string → list string → Result unit;
  (** the factor by which the unit registry converts a quantity *)
  conversion_factor : pyunit → pyunit → Q
}.

Section Model.
Context `{host : Host}.

(** [PysmoSurrogate.load_from_file(filename)]: opens the file and decodes
    it. *)
Definition load_from_file (filename : string) : M Surrogate :=
  λ s, let s := record (load_from_file_call filename) s in
       match files s !! filename with
       | None => (Raise (FileNotFoundError filename), s)
       | Some text =>
           match PysmoSurrogate_load text with
           | Ok surrogate => (Ok surrogate, s)
           | Raise e => (Raise e, s)
           end
       end.

(** [v.setlb(max(bnd[0], v.lb)); v.setub(min(bnd[1], v.ub))], the pair
    [bnd] itself where [v] has no bounds: the guess, the units and the doc
    stay. *)
Definition narrow (bnd : Q * Q) (v : Var) : Var :=
  mkVar (initialize v)
        (Some match bounds v with
              | Some (lb, ub) => (Qmax bnd.1 lb, Qmin bnd.2 ub)
              | None => bnd
              end)
        (units v) (doc v).

(** The same on the variable that the attribute [name] holds. *)
Definition set_bounds (name : string) (bnd : Q * Q) (a : gmap string Attr)
    : gmap string Attr :=
  match a !! name with
  | Some (AVar v) => <[name := AVar (narrow bnd v)]> a
  | _ => a
  end.

(** [for k, bnd in input_bounds.items(): ...]: each input variable gets
    the bounds of the input it stands for. *)
Fixpoint narrow_inputs (input_vars : list string) (bnds : list (Q * Q))
    (a : gmap string Attr) : gmap string Attr :=
  match input_vars, bnds with
  | name :: input_vars', bnd :: bnds' =>
      narrow_inputs input_vars' bnds' (set_bounds name bnd a)
  | _, _ => a
  end.

(** [use_surrogate_bounds], which [build_model] has on unless told
    otherwise: where the surrogate has input bounds, the input variables
    are narrowed to them. *)
Definition use_surrogate_bounds (surrogate : Surrogate)
    (input_vars : list string) (a : gmap string Attr) : gmap string Attr :=
  match sur_input_bounds surrogate with
  | Some bnds => narrow_inputs input_vars bnds a
  | None => a
  end.

(** [self.blk.build_model(surrogate, input_vars=..., output_vars=...)]:
    the bounds of the input variables are narrowed to those of the
    surrogate, and the block [blk] comes to hold the surrogate and the
    references to its input and output variables, unless the host rejects
    them.  A rejection is not told apart by whether it comes before the
    narrowing or after it: the inputs are taken to be narrowed by then. *)
Definition build_model (blk : string) (surrogate : Surrogate)
    (input_vars output_vars : list string) : M unit :=
  λ s, let s := record (build_model_call input_vars output_vars) s in
       let s := with_self
                  (λ b, mkBlock (use_surrogate_bounds surrogate input_vars
                                   (attrs b))
                                (scaling_factor b)) s in
       match populate_block surrogate input_vars output_vars with
       | Ok _ =>
           run (setattr blk (ASurrogateBlock
                  (mkSurrogateBlock (Some surrogate) input_vars output_vars))) s
       | Raise e => (Raise e, s)
       end.

(** *** [idaes.core.util.scaling] *)

(** [c.parent_block().scaling_factor[c]], [None] on [AttributeError] or
    [KeyError]. *)
Definition lookup_sf (b : Block) (c : string) : option Q :=
  match scaling_factor b with
  | Some suf => suf !! c
  | None => None
  end.

(** How [iscale] finds the object it is handed: a component of the
    block, which has a [parent_block()]; a plain number; or something that
    is neither. *)
Inductive kind := component | number | other.

Definition kind_of (x : Attr) : kind :=
  match x with
  | AVar _ | AConstraint _ | ASurrogateBlock _ => component
  | ANum _ => number
  | _ => other
  end.

(** [iscale.get_scaling_factor(c, default=..., warning=...)]: the factor
    the suffix holds for the component [c]; the default, after a warning
    if one is asked for, when it holds none or when [c] has no
    [parent_block()] to look on. *)
Definition get_scaling_factor (c : obj) (default : option Q)
    (warning : bool) : M (option Q) :=
  λ s, let s := record (get_scaling_factor_call c.1 default warning) s in
       match match kind_of c.2 with
             | component => lookup_sf (self s) c.1
             | _ => None
             end with
       | Some sf => (Ok (Some sf), s)
       | None => (Ok default, if warning then record (log_warning c.1) s else s)
       end.

(** [suf[c] = v], on a new suffix when the block has none. *)
Definition store_sf (c : string) (v : Q) (b : Block) : Block :=
  mkBlock (attrs b)
          (Some (<[c := v]> (match scaling_factor b with
                            | Some suf => suf
                            | None => ∅
                            end))).

(** [iscale.set_scaling_factor(c, v)]; [v] has to be a number, which it
    always is where [calculate_scaling_factors] calls it.  For a component
    the suffix takes the factor; for a plain number the call returns
    without doing anything; anything else has no [parent_block()], which is
    an [AttributeError]. *)
Definition set_scaling_factor (c : obj) (v : option Q) : M unit :=
  match v with
  | Some q =>
      λ s, let s := record (set_scaling_factor_call c.1 q) s in
           match kind_of c.2 with
           | component => (Ok tt, with_self (store_sf c.1 q) s)
           | number => (Ok tt, s)
           | other => (Raise (AttributeError "parent_block"), s)
           end
  | None => raise (TypeError "set_scaling_factor")
  end.

(** ** The methods of [FlatPlateSurrogateData] *)

Definition heat_load_Var : Var :=
  mkVar (Some 1000) (Some (100, 1000)) (Some MW)
        "Rated plant heat capacity in MWt".

Definition hours_storage_Var : Var :=
  mkVar (Some 20) (Some (0, 26)) (Some hour) "Rated plant hours of storage".

Definition temperature_hot_Var : Var :=
  mkVar (Some 70) (Some (50, 100)) (Some C) "Hot outlet temperature".

Definition heat_annual_Var : Var :=
  mkVar (Some 1000) None (Some kWh) "Annual heat generated by flat plate".

Definition electricity_annual_Var : Var :=
  mkVar (Some 20) None (Some kWh) "Annual electricity consumed by flat plate".

(** [pyunits.convert(1 * pyunits.year, to_units=pyunits.hour)] *)
Definition year_in_hours : Expr := EConvert 1 year hour.

(** [os.path.join(os.path.dirname(__file__), "flat_plate_surrogate.json")] *)
Definition surrogate_path : string :=
  path_join (dirname module_file) "flat_plate_surrogate.json".

(** [os.path.join(os.path.dirname(__file__), "data/flat_plate_data.pkl")] *)
Definition dataset_path : string :=
  path_join (dirname module_file) "data/flat_plate_data.pkl".

(** The five [Var] declarations of [build], lines 41 to 69. *)
Definition declare_variables : M unit :=
  setattr "heat_load" (AVar heat_load_Var) ;;
  setattr "hours_storage" (AVar hours_storage_Var) ;;
  setattr "temperature_hot" (AVar temperature_hot_Var) ;;
  setattr "heat_annual" (AVar heat_annual_Var) ;;
  setattr "electricity_annual" (AVar electricity_annual_Var).

Definition build : M unit :=
  super_build ;;
  setattr "_tech_type" (AStr "flat_plate") ;;
  declare_variables ;;
  stream <- new_StringIO ;;
  oldstdout <- get_sys_stdout ;;
  set_sys_stdout stream ;;
  heat_load <- self_attr "heat_load" ;;
  hours_storage <- self_attr "hours_storage" ;;
  temperature_hot <- self_attr "temperature_hot" ;;
  let surrogate_inputs := [heat_load.1; hours_storage.1; temperature_hot.1] in
  setattr "surrogate_inputs" (ARefs surrogate_inputs) ;;
  heat_annual <- self_attr "heat_annual" ;;
  electricity_annual <- self_attr "electricity_annual" ;;
  let surrogate_outputs := [heat_annual.1; electricity_annual.1] in
  setattr "surrogate_outputs" (ARefs surrogate_outputs) ;;
  setattr "input_labels"
          (ALabels ["heat_load"; "hours_storage"; "temperature_hot"]) ;;
  setattr "output_labels" (ALabels ["heat_annual"; "electricity_annual"]) ;;
  let surrogate_file := surrogate_path in
  setattr "surrogate_file" (AStr surrogate_file) ;;
  setattr "surrogate_blk" (ASurrogateBlock (mkSurrogateBlock None [] [])) ;;
  surrogate <- load_from_file surrogate_file ;;
  setattr "surrogate" (ASurrogate surrogate) ;;
  build_model "surrogate_blk" surrogate surrogate_inputs surrogate_outputs ;;
  heat_annual <- self_attr "heat_annual" ;;
  heat <- self_attr "heat" ;;
  heat <- as_operand heat ;;
  heat_annual <- as_operand heat_annual ;;
  setattr "heat_constraint"
          (AConstraint (mkConstraint heat_annual (EMul heat year_in_hours))) ;;
  electricity_annual <- self_attr "electricity_annual" ;;
  electricity <- self_attr "electricity" ;;
  electricity <- as_operand electricity ;;
  electricity_annual <- as_operand electricity_annual ;;
  setattr "electricity_constraint"
          (AConstraint (mkConstraint electricity_annual
                                     (EMul electricity year_in_hours))) ;;
  (* Revert back to standard output *)
  set_sys_stdout oldstdout ;;
  setattr "dataset_filename" (AStr dataset_path) ;;
  setattr "n_samples" (ANum 100) ;;
  setattr "training_fraction" (ANum 0.8).

(** One [if iscale.get_scaling_factor(self.name) is None: ...] paragraph of
    [calculate_scaling_factors]. *)
Definition scaling_default (name : string) (default : Q) (warning : bool)
    : M unit :=
  c <- self_attr name ;;
  sf0 <- get_scaling_factor c None false ;;
  match sf0 with
  | None =>
      c <- self_attr name ;;
      sf <- get_scaling_factor c (Some default) warning ;;
      c <- self_attr name ;;
      set_scaling_factor c sf
  | Some _ => ret tt
  end.

Definition calculate_scaling_factors : M unit :=
  scaling_default "hours_storage" 1 false ;;
  scaling_default "heat_load" 1e-2 true ;;
  scaling_default "temperature_hot" 1e-1 true ;;
  scaling_default "heat_annual" 1e-4 true ;;
  scaling_default "heat" 1e-4 true ;;
  scaling_default "electricity_annual" 1e-3 true ;;
  scaling_default "electricity" 1e-3 true.

Definition initialize_build : M unit := ret tt.

(** ** Reading a block *)

(** The value of an expression and the truth of a constraint at a point
    [ρ], which gives every variable of the block a number. *)
Fixpoint eval (ρ : string → Q) (e : Expr) : Q :=
  match e with
  | ERef name => ρ name
  | EConvert v u to_units => v * conversion_factor u to_units
  | EMul a b => eval ρ a * eval ρ b
  end.

Definition holds (ρ : string → Q) (c : Constraint) : Prop :=
  eval ρ (lhs c) == eval ρ (rhs c).

(** The constraints a bound surrogate block stands for: the output
    variables take the values the regression computes from the inputs. *)
Definition surrogate_holds (ρ : string → Q) (sb : SurrogateBlock) : Prop :=
  match sb_model sb with
  | Some surrogate =>
      Forall2 Qeq (map ρ (sb_outputs sb))
              (sur_predict surrogate (map ρ (sb_inputs sb)))
  | None => True
  end.

Definition in_bounds (x : Q) (v : Var) : Prop :=
  match bounds v with
  | Some (lb, ub) => lb <= x ∧ x <= ub
  | None => True
  end.

(** [ρ] is a feasible point of the block: every variable within its
    bounds, every constraint satisfied. *)
Definition feasible (ρ : string → Q) (b : Block) : Prop :=
  ∀ name x, attrs b !! name = Some x →
    match x with
    | AVar v => in_bounds (ρ name) v
    | AConstraint c => holds ρ c
    | ASurrogateBlock sb => surrogate_holds ρ sb
    | _ => True
    end.

(** The initial guess of a variable lies within its closed bounds. *)
Definition guess_within_bounds (v : Var) : Prop :=
  match initialize v, bounds v with
  | Some x, Some (lb, ub) => lb <= x ∧ x <= ub
  | _, _ => True
  end.

(** The initial guess is the upper bound itself. *)
Definition at_upper_bound (v : Var) : Prop :=
  match initialize v, bounds v with
  | Some x, Some (lb, ub) => lb <= x ∧ x == ub
  | _, _ => False
  end.

(** The initial guess is strictly between the bounds. *)
Definition strictly_inside (v : Var) : Prop :=
  match initialize v, bounds v with
  | Some x, Some (lb, ub) => lb < x ∧ x < ub
  | _, _ => False
  end.

(** A variable that is bounded, carries units and has an initial guess. *)
Definition fully_declared (v : Var) : bool :=
  bool_decide (is_Some (initialize v)) && bool_decide (is_Some (bounds v))
  && bool_decide (is_Some (units v)).

(** The variables of a block, with their names. *)
Definition variables (b : Block) : list (string * Var) :=
  omap (λ kv, match kv.2 with AVar v => Some (kv.1, v) | _ => None end)
       (map_to_list (attrs b)).

Definition is_annual (name : string) : bool :=
  bool_decide (name = "heat_annual") || bool_decide (name = "electricity_annual").

(** The variables other than the two annual outputs. *)
Definition decision_variables (b : Block) : list (string * Var) :=
  List.filter (λ nv, negb (is_annual nv.1)) (variables b).

(** Six decision variables, each bounded, with units and an initial
    guess. *)
Definition six_bounded_decision_variables (b : Block) : Prop :=
  length (decision_variables b) = 6%nat
  ∧ Forall (λ nv, fully_declared nv.2 = true) (decision_variables b).

(** The events a run has added to the trace of the state it started in. *)
Definition events_since (s s' : State) : list Event :=
  drop (length (trace s)) (trace s').

Definition is_load (ev : Event) : bool :=
  match ev with load_from_file_call _ => true | _ => false end.

Definition is_set_of (c : string) (ev : Event) : bool :=
  match ev with
  | set_scaling_factor_call c' _ => bool_decide (c' = c)
  | _ => false
  end.

(** The call to [iscale] is about the variable [c]. *)
Definition about (c : string) (ev : Event) : bool :=
  match ev with
  | get_scaling_factor_call c' _ _ | set_scaling_factor_call c' _
  | log_warning c' => bool_decide (c' = c)
  | _ => false
  end.

Fixpoint count (p : Event → bool) (evs : list Event) : nat :=
  match evs with
  | [] => 0%nat
  | ev :: evs' => ((if p ev then 1 else 0) + count p evs')%nat
  end.

(** The stream object was created before the state [s] was reached. *)
Definition allocated (s : State) (st : stream) : Prop :=
  match st with
  | StringIO id => (id < next_obj s)%nat
  | TextIO _ => True
  end.

(** The later life of a block: any sequence of calls of the two other
    methods. *)
Inductive method := m_calculate_scaling_factors | m_initialize_build.

Definition call (m : method) : M unit :=
  match m with
  | m_calculate_scaling_factors => calculate_scaling_factors
  | m_initialize_build => initialize_build
  end.

Fixpoint after_calls (ms : list method) (s : State) : State :=
  match ms with
  | [] => s
  | m :: ms' => after_calls ms' (run (call m) s).2
  end.

End Model.

(** ** A sample installation

    One concrete host, used to run the methods on actual inputs. *)

(** Modelled from the spec: [SolarEnergyBase.build] of
    [watertap_contrib.seto.core], which is not among the sources.  The spec
    has the base class provide the per-unit-time quantities [heat] and
    [electricity]; it says nothing of their bounds, units or guesses. *)
Definition SolarEnergyBase_build : M unit :=
  (setattr "heat" (AVar (mkVar None None None "Heat"%string)) ;;
   setattr "electricity" (AVar (mkVar None None None "Electricity"%string)))%py.

(** A small regression of the right shape: three inputs, two outputs,
    trained on [heat_load] in [200, 800], [hours_storage] in [2, 30] and
    [temperature_hot] in [40, 90]. *)
Definition sample_surrogate : Surrogate :=
  mkSurrogate ["heat_load"; "hours_storage"; "temperature_hot"]
              ["heat_annual"; "electricity_annual"]
              (Some [(200, 800); (2, 30); (40, 90)])
              (λ x, match x with
                    | [heat_load; hours_storage; temperature_hot] =>
                        [2000 * heat_load + 10 * hours_storage + temperature_hot;
                         3 * heat_load]
                    | _ => []
                    end).

(** The text of the artifact that decodes to [sample_surrogate]. *)
Definition sample_artifact : string := "{pysmo: flat_plate}".

(** The module installed under [/opt]; a decoder that knows the one
    artifact; a binding that checks the numbers of variables against the
    labels; a unit registry in which a year is 365.25 days of 24 hours. *)
Definition sample_host : Host := {|
  module_file := "/opt/watertap_contrib/seto/solar_models/surrogate/flat_plate/flat_plate_surrogate.py";
  super_build := SolarEnergyBase_build;
  PysmoSurrogate_load text :=
    if String.eqb text sample_artifact then Ok sample_surrogate
    else Raise (HostError "JSONDecodeError");
  populate_block surrogate input_vars output_vars :=
    if (length input_vars =? length (sur_input_labels surrogate))%nat
       && (length output_vars =? length (sur_output_labels surrogate))%nat
    then Ok tt else Raise (HostError "ValueError");
  conversion_factor u to_units :=
    match u, to_units with
    | year, hour => 8766
    | _, _ => 1
    end
|}.

(** A new block, [sys.stdout] on stream 1, nothing recorded yet, and the
    files [fs] on disk. *)
Definition sample_world (fs : gmap string string) : State :=
  mkState (mkBlock ∅ None) (TextIO 1) 0 fs "/home/user" [].

(** The artifact is where [build] looks for it. *)
Definition installed : gmap string string :=
  {[ "/opt/watertap_contrib/seto/solar_models/surrogate/flat_plate/flat_plate_surrogate.json"
     := sample_artifact ]}.

(** The file is there, but it does not hold a surrogate. *)
Definition corrupted : gmap string string :=
  {[ "/opt/watertap_contrib/seto/solar_models/surrogate/flat_plate/flat_plate_surrogate.json"
     := "<html>" ]}.

(** The sample world after the base class has built its part. *)
Definition sample_based (fs : gmap string string) : State :=
  (run SolarEnergyBase_build (sample_world fs)).2.

(** The state in which the sample installation leaves [build]. *)
Definition sample_after_build (fs : gmap string string) : State :=
  (run (@build sample_host) (sample_world fs)).2.

(** The block the sample installation constructs. *)
Definition sample_built : State := sample_after_build installed.

(** The same block after the user has chosen a scaling factor of 5 for
    [heat_load]. *)
Definition sample_prescaled : State :=
  with_self (store_sf "heat_load" 5) sample_built.

(** A point of the sample block: the three inputs chosen within their
    bounds, the rest as the surrogate and the conversion give them. *)
Definition sample_point (name : string) : Q :=
  if String.eqb name "heat_load" then 500
  else if String.eqb name "hours_storage" then 10
  else if String.eqb name "temperature_hot" then 60
  else if String.eqb name "heat_annual" then 1000160
  else if String.eqb name "electricity_annual" then 1500
  else if String.eqb name "heat" then 1000160 / 8766
  else if String.eqb name "electricity" then 1500 / 8766
  else 0.

(** The same point with [heat] and [electricity] written as other
    fractions. *)
Definition sample_point_reduced (name : string) : Q :=
  if String.eqb name "heat" then 500080 / 4383
  else if String.eqb name "electricity" then 250 / 1461
  else sample_point name.

(** The sample block with [hours_storage] overwritten by the plain number
    3, as a user's script may leave it. *)
Definition sample_overwritten : State :=
  with_self (λ b, mkBlock (<["hours_storage" := ANum 3]> (attrs b))
                          (scaling_factor b))
            sample_built.

(** A new block on which the five declarations of [build] have run, and
    nothing else. *)
Definition sample_declared : State :=
  (run declare_variables (sample_world ∅)).2.

(** The sample world with a block that already has a suffix for scaling
    factors, an empty one. *)
Definition sample_suffixed : State :=
  mkState (mkBlock ∅ (Some ∅)) (TextIO 1) 0 installed "/home/user" [].

(** A second installation: the module is run from its own directory, so
    that [__file__] has no directory part, and the base class declares
    nothing. *)
Definition bare_host : Host := {|
  module_file := "flat_plate_surrogate.py";
  super_build := ret tt;
  PysmoSurrogate_load := @PysmoSurrogate_load sample_host;
  populate_block := @populate_block sample_host;
  conversion_factor := @conversion_factor sample_host
|}.

Definition bare_files : gmap string string :=
  {[ "flat_plate_surrogate.json" := sample_artifact ]}.

(** The state in which the second installation leaves [build]. *)
Definition bare_after_build : State :=
  (run (@build bare_host) (sample_world bare_files)).2.

(** A new block in the world that the sample installation is left with
    after a [build] on the corrupted artifact, the artifact repaired. *)
Definition sample_retry : State :=
  mkState (mkBlock ∅ None)
          (sys_stdout (sample_after_build corrupted))
          (next_obj (sample_after_build corrupted))
          installed
          (cwd (sample_after_build corrupted))
          (trace (sample_after_build corrupted)).

(** ** What a run of [build] comes to

    After [super().build()] has returned, the rest of [build] is a straight
    line with five places where it can stop.  [build_result] spells the
    outcome out; [build_run] proves that it is what [build] does. *)

Section Outcome.
Context `{host : Host}.

Definition surrogate_inputs : list string :=
  ["heat_load"; "hours_storage"; "temperature_hot"].

Definition surrogate_outputs : list string :=
  ["heat_annual"; "electricity_annual"].

(** The attributes when [load_from_file] is called. *)
Definition declared (a : gmap string Attr) : gmap string Attr :=
  <["surrogate_blk" := ASurrogateBlock (mkSurrogateBlock None [] [])]>
  (<["surrogate_file" := AStr surrogate_path]>
  (<["output_labels" := ALabels ["heat_annual"; "electricity_annual"]]>
  (<["input_labels" := ALabels ["heat_load"; "hours_storage"; "temperature_hot"]]>
  (<["surrogate_outputs" := ARefs surrogate_outputs]>
  (<["surrogate_inputs" := ARefs surrogate_inputs]>
  (<["electricity_annual" := AVar electricity_annual_Var]>
  (<["heat_annual" := AVar heat_annual_Var]>
  (<["temperature_hot" := AVar temperature_hot_Var]>
  (<["hours_storage" := AVar hours_storage_Var]>
  (<["heat_load" := AVar heat_load_Var]>
  (<["_tech_type" := AStr "flat_plate"]> a))))))))))).

(** What [build_model] makes of the [i]-th input variable, declared as
    [v]. *)
Definition narrowed_Var (surrogate : Surrogate) (i : nat) (v : Var) : Var :=
  match sur_input_bounds surrogate with
  | Some bnds =>
      match bnds !! i with
      | Some bnd => narrow bnd v
      | None => v
      end
  | None => v
  end.

(** The bounds [build_model] leaves on the [i]-th input variable, declared
    with the bounds [d]: their intersection with the bounds the surrogate
    has for its [i]-th input, if it has any. *)
Definition narrowed_bounds (surrogate : Surrogate) (i : nat) (d : Q * Q)
    : Q * Q :=
  match sur_input_bounds surrogate with
  | Some bnds =>
      match bnds !! i with
      | Some bnd => (Qmax bnd.1 d.1, Qmin bnd.2 d.2)
      | None => d
      end
  | None => d
  end.

(** The attributes once the three declared inputs are narrowed. *)
Definition narrowed (surrogate : Surrogate) (a : gmap string Attr)
    : gmap string Attr :=
  <["temperature_hot" := AVar (narrowed_Var surrogate 2 temperature_hot_Var)]>
  (<["hours_storage" := AVar (narrowed_Var surrogate 1 hours_storage_Var)]>
  (<["heat_load" := AVar (narrowed_Var surrogate 0 heat_load_Var)]> a)).

(** The attributes once the surrogate is loaded and bound. *)
Definition bound (surrogate : Surrogate) (a : gmap string Attr)
    : gmap string Attr :=
  <["surrogate_blk" := ASurrogateBlock
      (mkSurrogateBlock (Some surrogate) surrogate_inputs surrogate_outputs)]>
  (narrowed surrogate (<["surrogate" := ASurrogate surrogate]> (declared a))).

Definition heat_constraint : Constraint :=
  mkConstraint (ERef "heat_annual") (EMul (ERef "heat") year_in_hours).

Definition electricity_constraint : Constraint :=
  mkConstraint (ERef "electricity_annual")
               (EMul (ERef "electricity") year_in_hours).

(** The attributes when [build] returns. *)
Definition built (surrogate : Surrogate) (a : gmap string Attr)
    : gmap string Attr :=
  <["training_fraction" := ANum 0.8]>
  (<["n_samples" := ANum 100]>
  (<["dataset_filename" := AStr dataset_path]>
  (<["electricity_constraint" := AConstraint electricity_constraint]>
  (<["heat_constraint" := AConstraint heat_constraint]>
  (bound surrogate a))))).

(** The variables and the constraints that [build] assigns. *)
Definition declared_variables : list (string * Var) :=
  [("heat_load", heat_load_Var);
   ("hours_storage", hours_storage_Var);
   ("temperature_hot", temperature_hot_Var);
   ("heat_annual", heat_annual_Var);
   ("electricity_annual", electricity_annual_Var)].

Definition declared_constraints : list (string * Constraint) :=
  [("heat_constraint", heat_constraint);
   ("electricity_constraint", electricity_constraint)].

(** Why [self.name] cannot be the operand of a constraint, if it
    cannot. *)
Definition var_error (name : string) (x : option Attr) : option exn :=
  match x with
  | Some (AVar _) => None
  | Some _ => Some (TypeError name)
  | None => Some (AttributeError name)
  end.

Definition build_result (s1 : State) : Result unit * State :=
  let a := attrs (self s1) in
  let redirected b evs :=
    mkState (mkBlock b (scaling_factor (self s1)))
            (StringIO (next_obj s1)) (S (next_obj s1)) (files s1) (cwd s1)
            (trace s1 ++ evs) in
  let loading := load_from_file_call surrogate_path in
  let binding := build_model_call surrogate_inputs surrogate_outputs in
  match files s1 !! surrogate_path with
  | None =>
      (Raise (FileNotFoundError surrogate_path), redirected (declared a) [loading])
  | Some text =>
      match PysmoSurrogate_load text with
      | Raise e => (Raise e, redirected (declared a) [loading])
      | Ok surrogate =>
          match populate_block surrogate surrogate_inputs surrogate_outputs with
          | Raise e =>
              (Raise e,
               redirected
                 (narrowed surrogate
                    (<["surrogate" := ASurrogate surrogate]> (declared a)))
                 [loading; binding])
          | Ok _ =>
              match var_error "heat" (a !! "heat") with
              | Some e =>
                  (Raise e, redirected (bound surrogate a) [loading; binding])
              | None =>
                  match var_error "electricity" (a !! "electricity") with
                  | Some e =>
                      (Raise e,
                       redirected
                         (<["heat_constraint" := AConstraint heat_constraint]>
                            (bound surrogate a))
                         [loading; binding])
                  | None =>
                      (Ok tt,
                       mkState (mkBlock (built surrogate a)
                                        (scaling_factor (self s1)))
                               (sys_stdout s1) (S (next_obj s1)) (files s1)
                               (cwd s1) (trace s1 ++ [loading; binding]))
                  end
              end
          end
      end
  end.

(** *** [calculate_scaling_factors] *)

(** The paragraphs of [calculate_scaling_factors] in their order: the
    variable, the default asked for, and the [warning] flag. *)
Definition scaling_defaults : list (string * Q * bool) :=
  [("hours_storage", 1, false);
   ("heat_load", 1e-2, true);
   ("temperature_hot", 1e-1, true);
   ("heat_annual", 1e-4, true);
   ("heat", 1e-4, true);
   ("electricity_annual", 1e-3, true);
   ("electricity", 1e-3, true)].

Definition scaling_targets : list string := map (λ p, p.1.1) scaling_defaults.

(** The block has a variable of this name. *)
Definition has_var (s : State) (name : string) : Prop :=
  ∃ v, attrs (self s) !! name = Some (AVar v).

(** What one paragraph does to the block and what it asks of [iscale]. *)
Definition default_block (name : string) (default : Q) (b : Block) : Block :=
  match lookup_sf b name with
  | Some _ => b
  | None => store_sf name default b
  end.

Definition default_events (name : string) (default : Q) (warning : bool)
    (b : Block) : list Event :=
  match lookup_sf b name with
  | Some _ => [get_scaling_factor_call name None false]
  | None =>
      [get_scaling_factor_call name None false;
       get_scaling_factor_call name (Some default) warning]
      ++ (if warning then [log_warning name] else [])
      ++ [set_scaling_factor_call name default]
  end.

Definition default_step (p : string * Q * bool) (s : State) : State :=
  let '(name, default, warning) := p in
  mkState (default_block name default (self s)) (sys_stdout s) (next_obj s)
          (files s) (cwd s)
          (trace s ++ default_events name default warning (self s)).

Definition defaults_applied (l : list (string * Q * bool)) (s : State) : State :=
  fold_left (λ s p, default_step p s) l s.

(** The first default the table [l] holds for [c]. *)
Fixpoint default_of (l : list (string * Q * bool)) (c : string) : option Q :=
  match l with
  | [] => None
  | (name, default, _) :: l' =>
      if decide (name = c) then Some default else default_of l' c
  end.

(** The paragraph of the table [l] for [c], if it has one. *)
Fixpoint paragraph_of (l : list (string * Q * bool)) (c : string)
    : option (Q * bool) :=
  match l with
  | [] => None
  | (name, default, warning) :: l' =>
      if decide (name = c) then Some (default, warning) else paragraph_of l' c
  end.

(** The calls the table [l] makes on a block [b], paragraph by paragraph. *)
Fixpoint defaults_events (l : list (string * Q * bool)) (b : Block) : list Event :=
  match l with
  | [] => []
  | (name, default, warning) :: l' =>
      default_events name default warning b
      ++ defaults_events l' (default_block name default b)
  end.

(** *** [calculate_scaling_factors] on any block *)

(** The paragraphs of a table, run one after the other. *)
Fixpoint run_defaults (l : list (string * Q * bool)) : M unit :=
  match l with
  | [] => ret tt
  | (name, default, warning) :: l' =>
      scaling_default name default warning ;; run_defaults l'
  end.

(** From [s] to [s'] only scaling factors of the names [l] have been
    given, none that was there has changed, and [iscale] has been called
    about those names only. *)
Definition kept (l : list string) (s s' : State) : Prop :=
  attrs (self s') = attrs (self s)
  ∧ sys_stdout s' = sys_stdout s
  ∧ files s' = files s
  ∧ cwd s' = cwd s
  ∧ (∀ c v, lookup_sf (self s) c = Some v → lookup_sf (self s') c = Some v)
  ∧ (∀ c, c ∉ l → lookup_sf (self s') c = lookup_sf (self s) c)
  ∧ ∃ evs,
      trace s' = (trace s ++ evs)%list
      ∧ Forall (λ ev, ∃ name, name ∈ l ∧ about name ev = true) evs.

(** The [set_scaling_factor] calls among some events, in their order. *)
Definition set_calls (evs : list Event) : list (string * Q) :=
  omap (λ ev, match ev with
              | set_scaling_factor_call c v => Some (c, v)
              | _ => None
              end) evs.

(** The entries of a table whose variable has no scaling factor on the
    block [b], with their defaults, in the order of the table. *)
Definition absent_defaults (l : list (string * Q * bool)) (b : Block)
    : list (string * Q) :=
  omap (λ p : string * Q * bool,
          match lookup_sf b p.1.1 with
          | None => Some (p.1.1, p.1.2)
          | Some _ => None
          end) l.

(** The attributes that [build] assigns. *)
Definition build_assigns : list string :=
  ["_tech_type"; "heat_load"; "hours_storage"; "temperature_hot";
   "heat_annual"; "electricity_annual"; "surrogate_inputs";
   "surrogate_outputs"; "input_labels"; "output_labels"; "surrogate_file";
   "surrogate_blk"; "surrogate"; "heat_constraint"; "electricity_constraint";
   "dataset_filename"; "n_samples"; "training_fraction"].

(** *** Quiet runs *)

(** From [s] to [s'] the attributes of the block stay as they are and
    nothing is loaded. *)
Definition quiet (s s' : State) : Prop :=
  attrs (self s') = attrs (self s)
  ∧ ∃ evs, trace s' = (trace s ++ evs)%list ∧ count is_load evs = 0%nat.

Definition stays_quiet {A} (m : M A) : Prop := ∀ s, quiet s (run m s).2.

End Outcome.

(** * Properties *)

Section Properties.
Context `{host : Host}.

Ltac look :=
  repeat first [ rewrite lookup_insert_eq
               | rewrite lookup_insert_ne by done ].

Ltac steps :=
  cbv beta iota zeta delta
      [setattr modify with_self new_StringIO get_sys_stdout set_sys_stdout
       self attrs with_stdout sys_stdout next_obj files cwd trace
       scaling_factor record run ret raise bind self_attr as_operand
       declare_variables fst snd].

Lemma var_error_Var name v : var_error name (Some (AVar v)) = None.
Proof. reflexivity. Qed.

Ltac vars := repeat (steps; look).

(** The narrowing of [build_model] on a block that holds the three inputs
    as variables. *)
Lemma use_surrogate_bounds_inputs surrogate a v0 v1 v2 :
  a !! "heat_load" = Some (AVar v0) →
  a !! "hours_storage" = Some (AVar v1) →
  a !! "temperature_hot" = Some (AVar v2) →
  use_surrogate_bounds surrogate
    ["heat_load"; "hours_storage"; "temperature_hot"] a
  = <["temperature_hot" := AVar (narrowed_Var surrogate 2 v2)]>
    (<["hours_storage" := AVar (narrowed_Var surrogate 1 v1)]>
    (<["heat_load" := AVar (narrowed_Var surrogate 0 v0)]> a)).
Proof.
  intros H0 H1 H2. unfold use_surrogate_bounds, narrowed_Var.
  destruct (sur_input_bounds surrogate) as [[|b0 [|b1 [|b2 bnds]]]|];
    cbn [narrow_inputs lookup list_lookup]; unfold set_bounds;
    look; rewrite ?H0, ?H1, ?H2; look; rewrite ?H1, ?H2; look; rewrite ?H2.
  all: apply map_eq; intros k;
    destruct (decide (k = "temperature_hot")) as [->|?];
    [|destruct (decide (k = "hours_storage")) as [->|?];
      [|destruct (decide (k = "heat_load")) as [->|?]]];
    look; rewrite ?H0, ?H1, ?H2; reflexivity.
Qed.

Lemma build_run s0 s1 :
  run super_build s0 = (Ok tt, s1) →
  run build s0 = build_result s1.
Proof.
  intros Hb. unfold build. unfold run at 1, bind at 1.
  unfold run in Hb. rewrite Hb.
  destruct s1 as [[a sf] out n fs d tr].
  unfold build_result, declared, bound, built, narrowed, heat_constraint,
    electricity_constraint, surrogate_inputs, surrogate_outputs.
  vars.
  unfold load_from_file. steps.
  destruct (fs !! surrogate_path) as [text|]; [|reflexivity].
  destruct (PysmoSurrogate_load text) as [sur|e]; [|reflexivity].
  unfold build_model. steps.
  rewrite (use_surrogate_bounds_inputs sur _ heat_load_Var hours_storage_Var
             temperature_hot_Var) by (look; reflexivity).
  rewrite <- !(app_assoc tr). cbn [app].
  destruct (populate_block _ _ _) as [[]|e]; [|reflexivity].
  vars.
  destruct (a !! "heat") as [[]|]; try reflexivity.
  vars.
  destruct (a !! "electricity") as [[]|]; reflexivity.
Qed.

(** *** Runs of [calculate_scaling_factors] *)

Lemma bind_run {A B} (m : M A) (k : A → M B) s a s1 :
  run m s = (Ok a, s1) → run (bind m k) s = run (k a) s1.
Proof. unfold run, bind. intros ->. reflexivity. Qed.

Lemma scaling_default_run name default warning s :
  has_var s name →
  run (scaling_default name default warning) s
  = (Ok tt, default_step (name, default, warning) s).
Proof.
  intros [v Hv]. destruct s as [[a sf] out n fs d tr]. cbn in Hv.
  unfold scaling_default, default_step, default_block, default_events,
    get_scaling_factor, set_scaling_factor.
  steps. rewrite Hv. cbn [kind_of]. steps.
  destruct (lookup_sf _ name) as [q|] eqn:Hq; steps; [reflexivity|].
  rewrite Hv. cbn [kind_of]. steps. rewrite Hq.
  destruct warning; steps; rewrite Hv; cbn [kind_of]; steps;
    rewrite <- !(app_assoc tr); reflexivity.
Qed.

Lemma default_step_attrs p s : attrs (self (default_step p s)) = attrs (self s).
Proof.
  destruct p as [[name default] warning]. cbn. unfold default_block.
  destruct (lookup_sf (self s) name); reflexivity.
Qed.

Lemma default_step_has_var p s name :
  has_var s name → has_var (default_step p s) name.
Proof. unfold has_var. rewrite default_step_attrs. trivial. Qed.

Lemma calculate_scaling_factors_run s :
  (∀ name, name ∈ scaling_targets → has_var s name) →
  run calculate_scaling_factors s = (Ok tt, defaults_applied scaling_defaults s).
Proof.
  intros Hs. unfold calculate_scaling_factors.
  assert (Hv : ∀ name, In name scaling_targets → has_var s name)
    by (intros name Hin; apply Hs, list_elem_of_In, Hin).
  cbn in Hv.
  repeat (erewrite bind_run;
          [| apply scaling_default_run;
             repeat apply default_step_has_var; apply Hv; tauto ]).
  rewrite scaling_default_run
    by (repeat apply default_step_has_var; apply Hv; tauto).
  reflexivity.
Qed.

Lemma lookup_sf_store name default b c :
  lookup_sf (store_sf name default b) c
  = if decide (name = c) then Some default else lookup_sf b c.
Proof.
  unfold lookup_sf, store_sf. cbn. rewrite lookup_insert.
  destruct (decide (name = c)); [reflexivity|].
  destruct (scaling_factor b); [reflexivity | apply lookup_empty].
Qed.

Lemma lookup_sf_default_block name default b c :
  lookup_sf (default_block name default b) c
  = match lookup_sf b c with
    | Some v => Some v
    | None => if decide (name = c) then Some default else None
    end.
Proof.
  unfold default_block. destruct (lookup_sf b name) as [q|] eqn:Hq.
  - destruct (lookup_sf b c) eqn:Hc; [reflexivity|].
    destruct (decide (name = c)); [congruence | reflexivity].
  - rewrite lookup_sf_store. destruct (decide (name = c)) as [<-|].
    + rewrite Hq. reflexivity.
    + destruct (lookup_sf b c); reflexivity.
Qed.

Lemma defaults_applied_self l s :
  self (defaults_applied l s)
  = fold_left (λ b p, default_block p.1.1 p.1.2 b) l (self s).
Proof.
  revert s. induction l as [|[[name default] warning] l IH]; intros s;
    [reflexivity|].
  cbn. rewrite IH. reflexivity.
Qed.

Lemma defaults_applied_attrs l s :
  attrs (self (defaults_applied l s)) = attrs (self s).
Proof.
  revert s. induction l as [|p l IH]; intros s; [reflexivity|].
  cbn. rewrite IH. apply default_step_attrs.
Qed.

Lemma defaults_applied_lookup l s c :
  lookup_sf (self (defaults_applied l s)) c
  = match lookup_sf (self s) c with
    | Some v => Some v
    | None => default_of l c
    end.
Proof.
  revert s. induction l as [|[[name default] warning] l IH]; intros s.
  - cbn. destruct (lookup_sf (self s) c); reflexivity.
  - cbn [defaults_applied fold_left default_of].
    change (fold_left _ l ?x) with (defaults_applied l x).
    rewrite IH. cbn [default_step self].
    rewrite lookup_sf_default_block.
    destruct (lookup_sf (self s) c); [reflexivity|].
    destruct (decide (name = c)); reflexivity.
Qed.

Lemma defaults_applied_trace l s :
  trace (defaults_applied l s) = (trace s ++ defaults_events l (self s))%list.
Proof.
  revert s. induction l as [|[[name default] warning] l IH]; intros s.
  - cbn. rewrite app_nil_r. reflexivity.
  - cbn [defaults_applied fold_left defaults_events].
    change (fold_left _ l ?x) with (defaults_applied l x).
    rewrite IH. cbn [default_step self trace].
    rewrite <- app_assoc. reflexivity.
Qed.

Lemma events_since_app s s' evs :
  trace s' = (trace s ++ evs)%list → events_since s s' = evs.
Proof. unfold events_since. intros ->. apply drop_app_length. Qed.

Lemma count_app p evs1 evs2 : count p (evs1 ++ evs2)%list = (count p evs1 + count p evs2)%nat.
Proof.
  induction evs1 as [|ev evs1 IH]; [reflexivity|].
  cbn. rewrite IH. lia.
Qed.

Lemma count_default_events c name default warning b :
  count (is_set_of c) (default_events name default warning b)
  = match lookup_sf b name with
    | Some _ => 0%nat
    | None => if decide (name = c) then 1%nat else 0%nat
    end.
Proof.
  unfold default_events. destruct (lookup_sf b name); [reflexivity|].
  destruct warning; cbn; destruct (decide (name = c)) as [->|Hne].
  all: try (rewrite bool_decide_eq_true_2 by reflexivity).
  all: try (rewrite bool_decide_eq_false_2 by assumption).
  all: reflexivity.
Qed.

Lemma count_defaults_events c l b :
  count (is_set_of c) (defaults_events l b)
  = match lookup_sf b c, default_of l c with
    | None, Some _ => 1%nat
    | _, _ => 0%nat
    end.
Proof.
  revert b. induction l as [|[[name default] warning] l IH]; intros b.
  - cbn. destruct (lookup_sf b c); reflexivity.
  - cbn [defaults_events default_of]. rewrite count_app, IH, count_default_events.
    rewrite lookup_sf_default_block.
    destruct (decide (name = c)) as [->|Hne].
    + destruct (lookup_sf b c); reflexivity.
    + destruct (lookup_sf b name), (lookup_sf b c), (default_of l c); reflexivity.
Qed.

Lemma paragraph_of_None l c :
  c ∉ map (λ p : string * Q * bool, p.1.1) l → paragraph_of l c = None.
Proof.
  induction l as [|[[name default] warning] l IH]; [reflexivity|].
  cbn. intros Hnin. apply not_elem_of_cons in Hnin as [Hne Hnin].
  destruct (decide (name = c)); [congruence | auto].
Qed.

Lemma default_events_lookup name default warning b b' :
  lookup_sf b' name = lookup_sf b name →
  default_events name default warning b' = default_events name default warning b.
Proof. unfold default_events. intros ->. reflexivity. Qed.

Lemma filter_about_default_events c name default warning b :
  List.filter (about c) (default_events name default warning b)
  = if decide (name = c) then default_events name default warning b else [].
Proof.
  unfold default_events.
  destruct (decide (name = c)) as [->|Hne];
    destruct (lookup_sf _ _), warning; cbn.
  all: try (rewrite !bool_decide_eq_true_2 by reflexivity).
  all: try (rewrite !bool_decide_eq_false_2 by assumption).
  all: reflexivity.
Qed.

Lemma filter_about_defaults_events c l b :
  NoDup (map (λ p : string * Q * bool, p.1.1) l) →
  List.filter (about c) (defaults_events l b)
  = match paragraph_of l c with
    | Some (default, warning) => default_events c default warning b
    | None => []
    end.
Proof.
  revert b. induction l as [|[[name default] warning] l IH]; intros b Hnd;
    [reflexivity|].
  cbn in Hnd. apply NoDup_cons in Hnd as [Hnin Hnd].
  cbn [defaults_events paragraph_of].
  rewrite List.filter_app, filter_about_default_events, (IH _ Hnd).
  destruct (decide (name = c)) as [->|Hne].
  - rewrite (paragraph_of_None _ _ Hnin). apply app_nil_r.
  - cbn [app]. destruct (paragraph_of l c) as [[d w]|]; [|reflexivity].
    apply default_events_lookup. rewrite lookup_sf_default_block.
    destruct (lookup_sf b c); [reflexivity|].
    destruct (decide (name = c)); [congruence | reflexivity].
Qed.

Lemma scaling_defaults_NoDup :
  NoDup (map (λ p : string * Q * bool, p.1.1) scaling_defaults).
Proof. apply (bool_decide_unpack _). vm_compute. exact I. Qed.

Lemma default_block_set name default b :
  lookup_sf b name ≠ None → default_block name default b = b.
Proof. unfold default_block. destruct (lookup_sf b name); congruence. Qed.

Lemma defaults_applied_fixed l s :
  (∀ p, p ∈ l → lookup_sf (self s) p.1.1 ≠ None) →
  self (defaults_applied l s) = self s.
Proof.
  rewrite defaults_applied_self. generalize (self s). clear s.
  induction l as [|p l IH]; intros b Hset; [reflexivity|].
  cbn. rewrite default_block_set by (apply Hset; left).
  apply IH. intros q Hq. apply Hset. right. exact Hq.
Qed.

Lemma scaling_defaults_default_of name default warning :
  (name, default, warning) ∈ scaling_defaults →
  default_of scaling_defaults name = Some default
  ∧ paragraph_of scaling_defaults name = Some (default, warning).
Proof.
  unfold scaling_defaults. intros Hin.
  repeat (apply elem_of_cons in Hin as [[= -> -> ->]|Hin];
          [split; reflexivity|]).
  apply elem_of_nil in Hin. contradiction.
Qed.

(** *** Methods that leave the attributes alone and load nothing *)

Lemma quiet_refl s : quiet s s.
Proof. split; [reflexivity|]. exists []. rewrite app_nil_r. split; reflexivity. Qed.

Lemma quiet_trans s1 s2 s3 : quiet s1 s2 → quiet s2 s3 → quiet s1 s3.
Proof.
  intros [Ha (evs & Ht & Hc)] [Ha' (evs' & Ht' & Hc')].
  split; [congruence|]. exists (evs ++ evs')%list.
  rewrite Ht', Ht, <- app_assoc, count_app, Hc, Hc'. split; reflexivity.
Qed.

Lemma quiet_record ev s : is_load ev = false → quiet s (record ev s).
Proof.
  intros Hev. split; [reflexivity|]. exists [ev]. cbn. rewrite Hev.
  split; reflexivity.
Qed.

Lemma stays_quiet_bind {A B} (m : M A) (k : A → M B) :
  stays_quiet m → (∀ a, stays_quiet (k a)) → stays_quiet (bind m k).
Proof.
  intros Hm Hk s. specialize (Hm s). unfold run, bind in *.
  destruct (m s) as [[a|e] s1]; cbn in *; [|exact Hm].
  eapply quiet_trans; [exact Hm | apply Hk].
Qed.

Lemma stays_quiet_ret {A} (a : A) : stays_quiet (ret a).
Proof. intros s. apply quiet_refl. Qed.

Lemma stays_quiet_self_attr name : stays_quiet (self_attr name).
Proof.
  intros s. unfold run, self_attr.
  destruct (attrs (self s) !! name); apply quiet_refl.
Qed.

Lemma stays_quiet_get_scaling_factor c default warning :
  stays_quiet (get_scaling_factor c default warning).
Proof.
  intros s. unfold run, get_scaling_factor.
  destruct (match kind_of c.2 with component => _ | _ => _ end);
    [apply quiet_record; reflexivity|].
  destruct warning; [|apply quiet_record; reflexivity].
  eapply quiet_trans; apply quiet_record; reflexivity.
Qed.

Lemma stays_quiet_set_scaling_factor c v : stays_quiet (set_scaling_factor c v).
Proof.
  intros s. destruct v as [q|]; [|apply quiet_refl].
  unfold run, set_scaling_factor.
  destruct (kind_of c.2); (split; [reflexivity|]);
    exists [set_scaling_factor_call c.1 q]; split; reflexivity.
Qed.

Lemma stays_quiet_scaling_default name default warning :
  stays_quiet (scaling_default name default warning).
Proof.
  unfold scaling_default.
  repeat first [ apply stays_quiet_bind; [|intros ?]
               | apply stays_quiet_self_attr
               | apply stays_quiet_get_scaling_factor
               | apply stays_quiet_set_scaling_factor
               | apply stays_quiet_ret
               | match goal with |- stays_quiet (match ?x with _ => _ end) =>
                   destruct x end ].
Qed.

Lemma stays_quiet_calculate_scaling_factors :
  stays_quiet calculate_scaling_factors.
Proof.
  unfold calculate_scaling_factors.
  repeat first [ apply stays_quiet_scaling_default
               | apply stays_quiet_bind; [|intros ?] ].
Qed.

Lemma after_calls_quiet ms s : quiet s (after_calls ms s).
Proof.
  revert s. induction ms as [|m ms IH]; intros s; [apply quiet_refl|].
  cbn [after_calls]. eapply quiet_trans; [|apply IH].
  destruct m; [apply stays_quiet_calculate_scaling_factors | apply quiet_refl].
Qed.

(** *** Runs of [build] *)

Lemma var_error_None name x :
  var_error name x = None → ∃ v, x = Some (AVar v).
Proof. destruct x as [[]|]; cbn; try discriminate. eauto. Qed.

Lemma build_returns s0 s1 s' :
  run super_build s0 = (Ok tt, s1) →
  run build s0 = (Ok tt, s') →
  ∃ text surrogate,
    files s1 !! surrogate_path = Some text
    ∧ PysmoSurrogate_load text = Ok surrogate
    ∧ populate_block surrogate surrogate_inputs surrogate_outputs = Ok tt
    ∧ has_var s1 "heat" ∧ has_var s1 "electricity"
    ∧ s' = mkState (mkBlock (built surrogate (attrs (self s1)))
                            (scaling_factor (self s1)))
                   (sys_stdout s1) (S (next_obj s1)) (files s1) (cwd s1)
                   (trace s1 ++ [load_from_file_call surrogate_path;
                                 build_model_call surrogate_inputs
                                                  surrogate_outputs]).
Proof.
  intros Hb Hr. rewrite (build_run _ _ Hb) in Hr. unfold build_result in Hr.
  destruct (files s1 !! surrogate_path) as [text|]; [|discriminate].
  destruct (PysmoSurrogate_load text) as [sur|] eqn:Hl; [|discriminate].
  destruct (populate_block _ _ _) as [[]|] eqn:Hp; [|discriminate].
  destruct (var_error "heat" _) eqn:Hh; [discriminate|].
  destruct (var_error "electricity" _) eqn:He; [discriminate|].
  exists text, sur.
  split; [reflexivity|]. split; [exact Hl|]. split; [exact Hp|].
  split; [exact (var_error_None _ _ Hh)|].
  split; [exact (var_error_None _ _ He)|].
  congruence.
Qed.

Lemma build_raises s0 s1 e s' :
  run super_build s0 = (Ok tt, s1) →
  run build s0 = (Raise e, s') →
  ∃ b evs,
    s' = mkState (mkBlock b (scaling_factor (self s1)))
                 (StringIO (next_obj s1)) (S (next_obj s1)) (files s1)
                 (cwd s1)
                 (trace s1 ++ load_from_file_call surrogate_path :: evs)
    ∧ (evs = [] ∨ evs = [build_model_call surrogate_inputs surrogate_outputs])
    ∧ (∀ name, name ∈ ["heat_annual"; "electricity_annual";
                       "surrogate_file"] →
               b !! name = declared (attrs (self s1)) !! name).
Proof.
  intros Hb Hr. rewrite (build_run _ _ Hb) in Hr. unfold build_result in Hr.
  assert (Hnames : ∀ name,
    name ∈ ["heat_annual"; "electricity_annual"; "surrogate_file"] →
    name ≠ "surrogate" ∧ name ≠ "surrogate_blk" ∧ name ≠ "heat_constraint"
    ∧ name ≠ "heat_load" ∧ name ≠ "hours_storage"
    ∧ name ≠ "temperature_hot").
  { intros name Hin.
    repeat (apply elem_of_cons in Hin as [->|Hin]; [repeat split; done|]).
    apply elem_of_nil in Hin. contradiction. }
  repeat match type of Hr with
         | match ?x with _ => _ end = _ => destruct x
         end; try discriminate.
  all: injection Hr as <- <-; eexists _, _; split; [reflexivity|].
  all: split; [auto|]; intros nm Hin;
    destruct (Hnames nm Hin) as (? & ? & ? & ? & ? & ?);
    unfold bound, narrowed;
    repeat rewrite lookup_insert_ne by done; reflexivity.
Qed.

(** A block that [build] has returned holds the seven variables that
    [calculate_scaling_factors] reads. *)
Lemma built_has_scaling_targets s0 s1 s' :
  run super_build s0 = (Ok tt, s1) →
  run build s0 = (Ok tt, s') →
  ∀ name, name ∈ scaling_targets → has_var s' name.
Proof.
  intros Hb Hr name Hin.
  destruct (build_returns _ _ _ Hb Hr)
    as (text & sur & _ & _ & _ & [vh Hh] & [ve He] & ->).
  apply list_elem_of_In in Hin. unfold has_var. cbn [self attrs].
  unfold built, bound, narrowed, declared.
  repeat (destruct Hin as [<-|Hin]; [look; eauto|]).
  contradiction.
Qed.

Lemma narrowed_Var_cases surrogate i v :
  narrowed_Var surrogate i v = v
  ∨ ∃ bnd, narrowed_Var surrogate i v = narrow bnd v.
Proof.
  unfold narrowed_Var. destruct (sur_input_bounds surrogate) as [bnds|]; auto.
  destruct (bnds !! i); eauto.
Qed.

(** Every variable and every constraint of the block after [build],
    returned or raised, is one that [build] assigns or one that
    [super().build()] left there; a variable is as [build] declares it, or
    that with its bounds narrowed. *)
Lemma build_attrs_origin s0 s1 r s' :
  run super_build s0 = (Ok tt, s1) →
  run build s0 = (r, s') →
  ∀ name x, attrs (self s') !! name = Some x →
    match x with
    | AVar v =>
        (∃ v0, In (name, v0) declared_variables
               ∧ (v = v0 ∨ ∃ bnd, v = narrow bnd v0))
        ∨ attrs (self s1) !! name = Some (AVar v)
    | AConstraint c =>
        In (name, c) declared_constraints
        ∨ attrs (self s1) !! name = Some (AConstraint c)
    | _ => True
    end.
Proof.
  intros Hb Hr.
  set (origin := λ m : gmap string Attr,
    ∀ name x, m !! name = Some x →
      match x with
      | AVar v =>
          (∃ v0, In (name, v0) declared_variables
                 ∧ (v = v0 ∨ ∃ bnd, v = narrow bnd v0))
          ∨ attrs (self s1) !! name = Some (AVar v)
      | AConstraint c =>
          In (name, c) declared_constraints
          ∨ attrs (self s1) !! name = Some (AConstraint c)
      | _ => True
      end).
  set (assigned := λ (k : string) (y : Attr),
    match y with
    | AVar v => ∃ v0, In (k, v0) declared_variables
                      ∧ (v = v0 ∨ ∃ bnd, v = narrow bnd v0)
    | AConstraint c => In (k, c) declared_constraints
    | _ => True
    end).
  assert (Hins : ∀ k y m, assigned k y → origin m → origin (<[k := y]> m)).
  { intros k y m Hy Hm name x. rewrite lookup_insert.
    destruct (decide (k = name)) as [<-|_]; [|apply Hm].
    intros [= <-]. destruct y; try exact I; left; exact Hy. }
  assert (Hbase : origin (attrs (self s1)))
    by (intros name x Hx; destruct x; try exact I; right; exact Hx).
  enough (Hs' : origin (attrs (self s'))) by exact Hs'.
  rewrite (build_run _ _ Hb) in Hr. unfold build_result in Hr.
  repeat match type of Hr with
         | match ?y with _ => _ end = _ => destruct y
         end.
  all: injection Hr as <- <-; cbn [self attrs];
    unfold built, bound, narrowed, declared.
  all: repeat (apply Hins;
               [first [ exact I
                      | cbn; tauto
                      | eexists; split;
                        [ cbn; eauto 10
                        | first [left; reflexivity
                                | apply narrowed_Var_cases] ] ]|]).
  all: exact Hbase.
Qed.

(** *** The claims on the variables and the constraints *)

(** C1.  A [build] that returns has put two equality constraints on the
    block, [heat_annual == heat * convert(1 year, to hour)] and
    [electricity_annual == electricity * convert(1 year, to hour)]; every
    other constraint of the block was left there by [super().build()].  At
    every feasible point of the block (all variables within their bounds,
    all constraints satisfied) the annual variables are the base-class
    quantities times the hours of a year, and they are the outputs the
    surrogate computes from the three inputs. *)
Theorem build_adds_two_conversion_constraints s0 s1 s' :
  run super_build s0 = (Ok tt, s1) →
  run build s0 = (Ok tt, s') →
  attrs (self s') !! "heat_constraint"
  = Some (AConstraint (mkConstraint (ERef "heat_annual")
                         (EMul (ERef "heat") (EConvert 1 year hour))))
  ∧ attrs (self s') !! "electricity_constraint"
    = Some (AConstraint (mkConstraint (ERef "electricity_annual")
                           (EMul (ERef "electricity") (EConvert 1 year hour))))
  ∧ (∀ name c,
       attrs (self s') !! name = Some (AConstraint c) →
       name = "heat_constraint" ∨ name = "electricity_constraint"
       ∨ attrs (self s1) !! name = Some (AConstraint c))
  ∧ ∀ ρ, feasible ρ (self s') →
      ρ "heat_annual" == ρ "heat" * conversion_factor year hour
      ∧ ρ "electricity_annual"
        == ρ "electricity" * conversion_factor year hour
      ∧ ∃ surrogate,
          attrs (self s') !! "surrogate" = Some (ASurrogate surrogate)
          ∧ Forall2 Qeq
              [ρ "heat_annual"; ρ "electricity_annual"]
              (sur_predict surrogate
                 [ρ "heat_load"; ρ "hours_storage"; ρ "temperature_hot"]).
Proof.
  intros Hb Hr. pose proof (build_attrs_origin _ _ _ _ Hb Hr) as Horigin.
  destruct (build_returns _ _ _ Hb Hr)
    as (text & sur & _ & _ & _ & _ & _ & ->).
  cbn [self attrs] in *.
  assert (Hh : built sur (attrs (self s1)) !! "heat_constraint"
               = Some (AConstraint heat_constraint))
    by (unfold built; look; reflexivity).
  assert (He : built sur (attrs (self s1)) !! "electricity_constraint"
               = Some (AConstraint electricity_constraint))
    by (unfold built; look; reflexivity).
  assert (Hs : built sur (attrs (self s1)) !! "surrogate"
               = Some (ASurrogate sur))
    by (unfold built, bound, narrowed; look; reflexivity).
  assert (Hblk : built sur (attrs (self s1)) !! "surrogate_blk"
                 = Some (ASurrogateBlock
                           (mkSurrogateBlock (Some sur) surrogate_inputs
                                             surrogate_outputs)))
    by (unfold built, bound, narrowed; look; reflexivity).
  split; [exact Hh|]. split; [exact He|]. split.
  - intros name c Hc. destruct (Horigin _ _ Hc) as [Hin|Hbase].
    + cbn in Hin. destruct Hin as [[= <- _]|[[= <- _]|[]]]; auto.
    + auto.
  - intros ρ Hfeas.
    pose proof (Hfeas _ _ Hh) as H1. pose proof (Hfeas _ _ He) as H2.
    pose proof (Hfeas _ _ Hblk) as H3.
    unfold holds in H1, H2. cbn in H1, H2, H3.
    rewrite Qmult_1_l in H1, H2.
    split; [exact H1|]. split; [exact H2|].
    exists sur. split; [exact Hs | exact H3].
Qed.

Lemma narrowed_Var_bounded surrogate i v :
  is_Some (bounds v) → is_Some (bounds (narrowed_Var surrogate i v)).
Proof.
  intros Hv. unfold narrowed_Var.
  destruct (sur_input_bounds surrogate) as [bnds|]; [|exact Hv].
  destruct (bnds !! i); [cbn; eauto | exact Hv].
Qed.

Lemma narrowed_Var_bounds surrogate i g d u doc :
  narrowed_Var surrogate i (mkVar g (Some d) u doc)
  = mkVar g (Some (narrowed_bounds surrogate i d)) u doc.
Proof.
  unfold narrowed_Var, narrowed_bounds.
  destruct (sur_input_bounds surrogate) as [bnds|]; [|reflexivity].
  destruct (bnds !! i); [|reflexivity]. destruct d. reflexivity.
Qed.

Lemma narrowed_bounds_within surrogate i d :
  d.1 <= (narrowed_bounds surrogate i d).1
  ∧ (narrowed_bounds surrogate i d).2 <= d.2.
Proof.
  unfold narrowed_bounds.
  destruct (sur_input_bounds surrogate) as [bnds|];
    [|split; apply Qle_refl].
  destruct (bnds !! i) as [bnd|]; [|split; apply Qle_refl].
  split; [apply Q.le_max_r | apply Q.le_min_r].
Qed.

Lemma declare_variables_run s :
  run declare_variables s
  = (Ok tt,
     with_self (λ b, mkBlock
       (<["electricity_annual" := AVar electricity_annual_Var]>
       (<["heat_annual" := AVar heat_annual_Var]>
       (<["temperature_hot" := AVar temperature_hot_Var]>
       (<["hours_storage" := AVar hours_storage_Var]>
       (<["heat_load" := AVar heat_load_Var]> (attrs b))))))
       (scaling_factor b)) s).
Proof. destruct s as [[a sf] out n fs d tr]. reflexivity. Qed.

(** C4, as the code has it.  [build] declares five variables: three
    decision variables with bounds, units and an initial guess ([heat_load]
    in [100, 1000] MW at 1000, [hours_storage] in [0, 26] hour at 20,
    [temperature_hot] in [50, 100] C at 70) and two annual output variables
    with units kWh and an initial guess but no bounds ([heat_annual] at
    1000, [electricity_annual] at 20); it declares no other.  On a block
    that [build] has returned, the three decision variables are bounded,
    carry their units and their guess, their bounds being those declared
    or, where the surrogate has bounds for its inputs, the intersection
    with them; the two annual variables are as declared and are the outputs
    bound to the surrogate; [heat] and [electricity] are variables that
    [super().build()] left on the block, and so is every variable other
    than these five. *)
Theorem build_declares_three_bounded_two_annual s0 s1 s' :
  run super_build s0 = (Ok tt, s1) →
  run build s0 = (Ok tt, s') →
  (∀ s, ∃ sd,
     run declare_variables s = (Ok tt, sd)
     ∧ attrs (self sd) !! "heat_load"
       = Some (AVar (mkVar (Some 1000) (Some (100, 1000)) (Some MW)
                           "Rated plant heat capacity in MWt"))
     ∧ attrs (self sd) !! "hours_storage"
       = Some (AVar (mkVar (Some 20) (Some (0, 26)) (Some hour)
                           "Rated plant hours of storage"))
     ∧ attrs (self sd) !! "temperature_hot"
       = Some (AVar (mkVar (Some 70) (Some (50, 100)) (Some C)
                           "Hot outlet temperature"))
     ∧ attrs (self sd) !! "heat_annual"
       = Some (AVar (mkVar (Some 1000) None (Some kWh)
                           "Annual heat generated by flat plate"))
     ∧ attrs (self sd) !! "electricity_annual"
       = Some (AVar (mkVar (Some 20) None (Some kWh)
                           "Annual electricity consumed by flat plate"))
     ∧ ∀ name,
         ¬ In name ["heat_load"; "hours_storage"; "temperature_hot";
                    "heat_annual"; "electricity_annual"] →
         attrs (self sd) !! name = attrs (self s) !! name)
  ∧ ∃ surrogate,
      attrs (self s') !! "surrogate" = Some (ASurrogate surrogate)
      ∧ attrs (self s') !! "heat_load"
        = Some (AVar (mkVar (Some 1000)
                            (Some (narrowed_bounds surrogate 0 (100, 1000)))
                            (Some MW) "Rated plant heat capacity in MWt"))
      ∧ attrs (self s') !! "hours_storage"
        = Some (AVar (mkVar (Some 20)
                            (Some (narrowed_bounds surrogate 1 (0, 26)))
                            (Some hour) "Rated plant hours of storage"))
      ∧ attrs (self s') !! "temperature_hot"
        = Some (AVar (mkVar (Some 70)
                            (Some (narrowed_bounds surrogate 2 (50, 100)))
                            (Some C) "Hot outlet temperature"))
      ∧ (∀ i d, d.1 <= (narrowed_bounds surrogate i d).1
                ∧ (narrowed_bounds surrogate i d).2 <= d.2)
      ∧ (sur_input_bounds surrogate = None →
         ∀ i d, narrowed_bounds surrogate i d = d)
      ∧ attrs (self s') !! "heat_annual"
        = Some (AVar (mkVar (Some 1000) None (Some kWh)
                            "Annual heat generated by flat plate"))
      ∧ attrs (self s') !! "electricity_annual"
        = Some (AVar (mkVar (Some 20) None (Some kWh)
                            "Annual electricity consumed by flat plate"))
      ∧ attrs (self s') !! "surrogate_inputs"
        = Some (ARefs ["heat_load"; "hours_storage"; "temperature_hot"])
      ∧ attrs (self s') !! "surrogate_outputs"
        = Some (ARefs ["heat_annual"; "electricity_annual"])
      ∧ attrs (self s') !! "surrogate_blk"
        = Some (ASurrogateBlock
                  (mkSurrogateBlock (Some surrogate)
                     ["heat_load"; "hours_storage"; "temperature_hot"]
                     ["heat_annual"; "electricity_annual"]))
      ∧ has_var s1 "heat" ∧ has_var s1 "electricity"
      ∧ attrs (self s') !! "heat" = attrs (self s1) !! "heat"
      ∧ attrs (self s') !! "electricity" = attrs (self s1) !! "electricity"
      ∧ ∀ name v,
          attrs (self s') !! name = Some (AVar v) →
          In name ["heat_load"; "hours_storage"; "temperature_hot";
                   "heat_annual"; "electricity_annual"]
          ∨ attrs (self s1) !! name = Some (AVar v).
Proof.
  intros Hb Hr. pose proof (build_attrs_origin _ _ _ _ Hb Hr) as Horigin.
  split.
  { intros s. eexists. split; [apply declare_variables_run|].
    cbn [self attrs with_self]. look.
    repeat (split; [reflexivity|]).
    intros name Hnin. cbn [In] in Hnin.
    repeat rewrite lookup_insert_ne by (intros <-; tauto). reflexivity. }
  destruct (build_returns _ _ _ Hb Hr)
    as (text & sur & _ & _ & _ & Hheat & Helec & ->).
  exists sur. cbn [self attrs] in *.
  assert (Hvars : ∀ name v,
    built sur (attrs (self s1)) !! name = Some (AVar v) →
    In name ["heat_load"; "hours_storage"; "temperature_hot";
             "heat_annual"; "electricity_annual"]
    ∨ attrs (self s1) !! name = Some (AVar v)).
  { intros name v Hv.
    destruct (Horigin _ _ Hv) as [(v0 & Hin & _)|Hbase]; [|auto].
    left. cbn in Hin. cbn.
    repeat (destruct Hin as [[= <- _]|Hin]; [tauto|]). contradiction. }
  split; [unfold built, bound, narrowed, declared; look; reflexivity|].
  do 3 (split; [unfold built, bound, narrowed, declared; look;
                apply (f_equal (λ v, Some (AVar v))), narrowed_Var_bounds|]).
  split; [apply narrowed_bounds_within|].
  split.
  { intros Hnone i d. unfold narrowed_bounds. rewrite Hnone. reflexivity. }
  do 5 (split; [unfold built, bound, narrowed, declared; look; reflexivity|]).
  split; [exact Hheat|]. split; [exact Helec|].
  do 2 (split; [unfold built, bound, narrowed, declared; look; reflexivity|]).
  exact Hvars.
Qed.

(** C10.  Each of the three variables that [build] declares with bounds
    has its initial guess within them: [heat_load] starts at 1000, the
    upper end of [100, 1000]; [hours_storage] at 20, strictly inside
    [0, 26]; [temperature_hot] at 70, strictly inside [50, 100]; and so has
    every variable the declarations put on the block.  Whatever the outcome
    of [build] after [super().build()], the three are on the block with
    that guess and with bounds that lie within the declared ones. *)
Theorem declared_guesses_within_bounds s0 s1 r s' :
  run super_build s0 = (Ok tt, s1) →
  run build s0 = (r, s') →
  (∀ s, ∃ sd,
     run declare_variables s = (Ok tt, sd)
     ∧ (∃ v, attrs (self sd) !! "heat_load" = Some (AVar v)
             ∧ initialize v = Some 1000 ∧ bounds v = Some (100, 1000)
             ∧ at_upper_bound v)
     ∧ (∃ v, attrs (self sd) !! "hours_storage" = Some (AVar v)
             ∧ initialize v = Some 20 ∧ bounds v = Some (0, 26)
             ∧ strictly_inside v)
     ∧ (∃ v, attrs (self sd) !! "temperature_hot" = Some (AVar v)
             ∧ initialize v = Some 70 ∧ bounds v = Some (50, 100)
             ∧ strictly_inside v)
     ∧ ∀ name v,
         attrs (self sd) !! name = Some (AVar v) →
         guess_within_bounds v ∨ attrs (self s) !! name = Some (AVar v))
  ∧ (∃ v lb ub, attrs (self s') !! "heat_load" = Some (AVar v)
                ∧ initialize v = Some 1000 ∧ bounds v = Some (lb, ub)
                ∧ 100 <= lb ∧ ub <= 1000)
  ∧ (∃ v lb ub, attrs (self s') !! "hours_storage" = Some (AVar v)
                ∧ initialize v = Some 20 ∧ bounds v = Some (lb, ub)
                ∧ 0 <= lb ∧ ub <= 26)
  ∧ (∃ v lb ub, attrs (self s') !! "temperature_hot" = Some (AVar v)
                ∧ initialize v = Some 70 ∧ bounds v = Some (lb, ub)
                ∧ 50 <= lb ∧ ub <= 100).
Proof.
  intros Hb Hr. split.
  { intros s. eexists. split; [apply declare_variables_run|].
    cbn [self attrs with_self].
    split; [|split; [|split]].
    - exists heat_load_Var. look. repeat split; cbn; try reflexivity.
      unfold Qle; cbn; lia.
    - exists hours_storage_Var. look. repeat split; reflexivity.
    - exists temperature_hot_Var. look. repeat split; reflexivity.
    - intros name v Hv.
      repeat (rewrite lookup_insert in Hv;
              destruct (decide (_ = name)) as [<-|_];
              [injection Hv as <-; left; unfold guess_within_bounds; cbn;
               try (split; unfold Qle; cbn; lia); exact I|]).
      right. exact Hv. }
  assert (Hor : ∀ name i v,
    In (name, i, v)
       [("heat_load", 0%nat, heat_load_Var);
        ("hours_storage", 1%nat, hours_storage_Var);
        ("temperature_hot", 2%nat, temperature_hot_Var)] →
    attrs (self s') !! name = Some (AVar v)
    ∨ ∃ sur, attrs (self s') !! name = Some (AVar (narrowed_Var sur i v))).
  { intros name i v Hin.
    rewrite (build_run _ _ Hb) in Hr. unfold build_result in Hr.
    repeat match type of Hr with
           | match ?y with _ => _ end = _ => destruct y
           end.
    all: injection Hr as <- <-; cbn [self attrs];
      unfold built, bound, narrowed, declared.
    all: destruct Hin as [[= <- <- <-]|[[= <- <- <-]|[[= <- <- <-]|[]]]];
      look; first [left; reflexivity | right; eexists; reflexivity]. }
  assert (Hin : ∀ name i g d u doc,
    In (name, i, mkVar g (Some d) u doc)
       [("heat_load", 0%nat, heat_load_Var);
        ("hours_storage", 1%nat, hours_storage_Var);
        ("temperature_hot", 2%nat, temperature_hot_Var)] →
    ∃ v lb ub, attrs (self s') !! name = Some (AVar v)
               ∧ initialize v = g ∧ bounds v = Some (lb, ub)
               ∧ d.1 <= lb ∧ ub <= d.2).
  { intros name i g d u doc Hin. destruct (Hor _ _ _ Hin) as [Hv|[sur Hv]].
    - destruct d as [lb ub]. exists (mkVar g (Some (lb, ub)) u doc), lb, ub.
      repeat split; [exact Hv | apply Qle_refl | apply Qle_refl].
    - rewrite narrowed_Var_bounds in Hv.
      destruct (narrowed_bounds sur i d) as [lb ub] eqn:Hd.
      exists (mkVar g (Some (lb, ub)) u doc), lb, ub.
      pose proof (narrowed_bounds_within sur i d) as Hw. rewrite Hd in Hw.
      repeat split; [exact Hv | apply Hw | apply Hw]. }
  split; [|split].
  - apply (Hin "heat_load" 0%nat (Some 1000) (100, 1000) (Some MW)
             "Rated plant heat capacity in MWt"). cbn. tauto.
  - apply (Hin "hours_storage" 1%nat (Some 20) (0, 26) (Some hour)
             "Rated plant hours of storage"). cbn. tauto.
  - apply (Hin "temperature_hot" 2%nat (Some 70) (50, 100) (Some C)
             "Hot outlet temperature"). cbn. tauto.
Qed.

(** *** [os.path] on the path of a module *)

Lemma append_nil b : EmptyString ++ b = b.
Proof. reflexivity. Qed.

Lemma append_cons c a b : String c a ++ b = String c (a ++ b).
Proof. reflexivity. Qed.

Lemma rfind_sep_succ_app a b :
  rfind_sep_succ (a ++ b)
  = match rfind_sep_succ b with
    | O => rfind_sep_succ a
    | S k => (String.length a + S k)%nat
    end.
Proof.
  induction a as [|c a IH].
  - rewrite append_nil. destruct (rfind_sep_succ b); reflexivity.
  - rewrite append_cons. cbn [rfind_sep_succ String.length]. rewrite IH.
    destruct (rfind_sep_succ b) as [|k]; [reflexivity|].
    rewrite Nat.add_succ_r. cbn. rewrite Nat.add_succ_r. reflexivity.
Qed.

Lemma substring_app_length a b n :
  substring 0 (String.length a + n) (a ++ b) = a ++ substring 0 n b.
Proof.
  induction a as [|c a IH]; [reflexivity|].
  rewrite !append_cons. cbn [String.length Nat.add substring].
  rewrite IH. reflexivity.
Qed.

Lemma all_sep_no_trailing_sep p :
  p ≠ EmptyString → endswith_sep p = false → all_sep p = false.
Proof.
  induction p as [|c p IH]; [congruence|]. intros _ Hend.
  cbn [all_sep]. destruct p as [|c' p].
  - cbn in Hend. rewrite Hend. reflexivity.
  - rewrite IH by (congruence || exact Hend). apply andb_false_r.
Qed.

Lemma all_sep_app a b : all_sep (a ++ b) = all_sep a && all_sep b.
Proof.
  induction a as [|c a IH]; [reflexivity|].
  rewrite append_cons. cbn [all_sep]. rewrite IH. apply andb_assoc.
Qed.

Lemma rstrip_sep_trailing p :
  endswith_sep p = false → rstrip_sep (p ++ "/") = p.
Proof.
  induction p as [|c p IH]; [reflexivity|]. intros Hend.
  rewrite append_cons. cbn [rstrip_sep]. destruct p as [|c' p].
  - rewrite append_nil. cbn in *. rewrite Hend. reflexivity.
  - rewrite IH by exact Hend. reflexivity.
Qed.

(** A module file [dir/base] has [dir] as its [dirname], and a relative
    name joined to it lies in [dir]. *)
Lemma dirname_of_module dir base :
  rfind_sep_succ base = 0%nat → dir ≠ EmptyString → endswith_sep dir = false →
  dirname (dir ++ "/" ++ base) = dir.
Proof.
  intros Hbase Hdir Hend. unfold dirname.
  rewrite rfind_sep_succ_app, append_cons, append_nil.
  cbn [rfind_sep_succ]. rewrite Hbase.
  change (is_sep "/") with true. cbv iota.
  rewrite substring_app_length.
  cbn [substring]. replace (substring 0 0 base) with EmptyString
    by (destruct base; reflexivity).
  rewrite all_sep_app, (all_sep_no_trailing_sep _ Hdir Hend).
  replace (String.eqb (dir ++ "/") EmptyString) with false
    by (destruct dir; reflexivity).
  cbn [negb andb]. apply rstrip_sep_trailing, Hend.
Qed.

Lemma path_join_relative dir file :
  dir ≠ EmptyString → endswith_sep dir = false → startswith_sep file = false →
  path_join dir file = dir ++ "/" ++ file.
Proof.
  intros Hdir Hend Hfile. unfold path_join. rewrite Hfile, Hend.
  destruct dir; [congruence | reflexivity].
Qed.

(** *** The claims on the surrogate artifact, its path and its errors *)

(** C3.  A [build] that returns has called [load_from_file] exactly once;
    what that call decoded from the artifact is the block's [surrogate], the
    model bound in [surrogate_blk]; and whatever sequence of
    [calculate_scaling_factors] and [initialize_build] calls follows, the
    block keeps that same surrogate and nothing is loaded again. *)
Theorem surrogate_loaded_once_and_kept s0 s1 s' :
  run super_build s0 = (Ok tt, s1) →
  run build s0 = (Ok tt, s') →
  ∃ text surrogate,
    files s1 !! surrogate_path = Some text
    ∧ PysmoSurrogate_load text = Ok surrogate
    ∧ count is_load (events_since s1 s') = 1%nat
    ∧ attrs (self s') !! "surrogate" = Some (ASurrogate surrogate)
    ∧ attrs (self s') !! "surrogate_blk"
      = Some (ASurrogateBlock
                (mkSurrogateBlock (Some surrogate)
                   ["heat_load"; "hours_storage"; "temperature_hot"]
                   ["heat_annual"; "electricity_annual"]))
    ∧ ∀ ms,
        attrs (self (after_calls ms s')) !! "surrogate"
        = Some (ASurrogate surrogate)
        ∧ count is_load (events_since s' (after_calls ms s')) = 0%nat.
Proof.
  intros Hb Hr.
  destruct (build_returns _ _ _ Hb Hr)
    as (text & sur & Hf & Hl & _ & _ & _ & ->).
  exists text, sur. split; [exact Hf|]. split; [exact Hl|].
  split; [erewrite events_since_app by reflexivity; reflexivity|].
  assert (Hsur : built sur (attrs (self s1)) !! "surrogate"
                 = Some (ASurrogate sur))
    by (unfold built, bound, narrowed; look; reflexivity).
  split; [exact Hsur|].
  split; [cbn; unfold built, bound, narrowed; look; reflexivity|].
  intros ms. destruct (after_calls_quiet ms
    (mkState (mkBlock (built sur (attrs (self s1))) (scaling_factor (self s1)))
             (sys_stdout s1) (S (next_obj s1)) (files s1) (cwd s1)
             (trace s1 ++ [load_from_file_call surrogate_path;
                           build_model_call surrogate_inputs surrogate_outputs])))
    as [Ha (evs & Ht & Hc)].
  split; [rewrite Ha; exact Hsur|].
  rewrite (events_since_app _ _ _ Ht). exact Hc.
Qed.

(** C5.  Whatever the outcome of [build], the path it stores in
    [surrogate_file], and the one path it hands to [load_from_file], is
    [os.path.join(os.path.dirname(__file__), "flat_plate_surrogate.json")];
    a [build] that returns stores
    [os.path.join(os.path.dirname(__file__), "data/flat_plate_data.pkl")] in
    [dataset_filename].  Started in another working directory [d], [build]
    stores and loads the same paths.  When the module file is [dir/base],
    the two paths are [dir/flat_plate_surrogate.json] and
    [dir/data/flat_plate_data.pkl]: beside the source file. *)
Theorem build_paths_beside_module s0 s1 r s' d t1 q t' :
  run super_build s0 = (Ok tt, s1) →
  run build s0 = (r, s') →
  run super_build (with_cwd d s0) = (Ok tt, t1) →
  run build (with_cwd d s0) = (q, t') →
  attrs (self s') !! "surrogate_file"
  = Some (AStr (path_join (dirname module_file) "flat_plate_surrogate.json"))
  ∧ List.filter is_load (events_since s1 s')
    = [load_from_file_call
         (path_join (dirname module_file) "flat_plate_surrogate.json")]
  ∧ (r = Ok tt →
     attrs (self s') !! "dataset_filename"
     = Some (AStr (path_join (dirname module_file) "data/flat_plate_data.pkl")))
  ∧ attrs (self t') !! "surrogate_file" = attrs (self s') !! "surrogate_file"
  ∧ List.filter is_load (events_since t1 t')
    = List.filter is_load (events_since s1 s')
  ∧ (r = Ok tt → q = Ok tt →
     attrs (self t') !! "dataset_filename"
     = attrs (self s') !! "dataset_filename")
  ∧ ∀ dir base,
      module_file = dir ++ "/" ++ base →
      rfind_sep_succ base = 0%nat →
      dir ≠ EmptyString → endswith_sep dir = false →
      path_join (dirname module_file) "flat_plate_surrogate.json"
      = dir ++ "/flat_plate_surrogate.json"
      ∧ path_join (dirname module_file) "data/flat_plate_data.pkl"
        = dir ++ "/data/flat_plate_data.pkl".
Proof.
  assert (Hone : ∀ u0 u1 p u',
    run super_build u0 = (Ok tt, u1) → run build u0 = (p, u') →
    attrs (self u') !! "surrogate_file" = Some (AStr surrogate_path)
    ∧ List.filter is_load (events_since u1 u')
      = [load_from_file_call surrogate_path]
    ∧ (p = Ok tt →
       attrs (self u') !! "dataset_filename" = Some (AStr dataset_path))).
  { intros u0 u1 [[]|e] u' Hb Hr.
    - destruct (build_returns _ _ _ Hb Hr) as (_ & sur & _ & _ & _ & _ & _ & ->).
      split; [cbn; unfold built, bound, narrowed, declared; look; reflexivity|].
      split; [erewrite events_since_app by reflexivity; reflexivity|].
      intros _. cbn. unfold built. look. reflexivity.
    - destruct (build_raises _ _ _ _ Hb Hr) as (b & evs & -> & Hevs & Hdecl).
      split.
      + cbn. rewrite Hdecl by (apply list_elem_of_In; cbn; tauto).
        unfold declared. look. reflexivity.
      + split; [|discriminate].
        erewrite events_since_app by reflexivity.
        destruct Hevs as [-> | ->]; reflexivity. }
  intros Hb Hr Hb' Hr'.
  destruct (Hone _ _ _ _ Hb Hr) as (Hf & Hl & Hd).
  destruct (Hone _ _ _ _ Hb' Hr') as (Hf' & Hl' & Hd').
  split; [exact Hf|]. split; [exact Hl|]. split; [exact Hd|].
  split; [congruence|]. split; [congruence|].
  split; [intros Hr1 Hq1; rewrite (Hd Hr1), (Hd' Hq1); reflexivity|].
  intros dir base -> Hbase Hdir Hend.
  rewrite (dirname_of_module _ _ Hbase Hdir Hend).
  split; apply path_join_relative; auto.
Qed.

(** C6.  [build] handles no error of the construction.  Once
    [super().build()] has returned: a missing artifact makes [build] raise
    the [FileNotFoundError] of the load; whatever the decoder raises on the
    content of the artifact, [build] raises; in general every exception of
    the [load_from_file] call is the exception of [build]; and so is what
    [build_model] raises, and the [AttributeError] of a constraint whose
    base-class variable is missing. *)
Theorem build_propagates_errors s0 s1 :
  run super_build s0 = (Ok tt, s1) →
  (files s1 !! surrogate_path = None →
   (run build s0).1 = Raise (FileNotFoundError surrogate_path))
  ∧ (∀ text e,
       files s1 !! surrogate_path = Some text →
       PysmoSurrogate_load text = Raise e →
       (run build s0).1 = Raise e)
  ∧ (∀ e, (run (load_from_file surrogate_path) s1).1 = Raise e →
          (run build s0).1 = Raise e)
  ∧ (∀ surrogate e,
       (run (load_from_file surrogate_path) s1).1 = Ok surrogate →
       populate_block surrogate
         ["heat_load"; "hours_storage"; "temperature_hot"]
         ["heat_annual"; "electricity_annual"] = Raise e →
       (run build s0).1 = Raise e)
  ∧ (∀ surrogate name,
       (run (load_from_file surrogate_path) s1).1 = Ok surrogate →
       populate_block surrogate
         ["heat_load"; "hours_storage"; "temperature_hot"]
         ["heat_annual"; "electricity_annual"] = Ok tt →
       (name = "heat"
        ∨ name = "electricity" ∧ has_var s1 "heat") →
       attrs (self s1) !! name = None →
       (run build s0).1 = Raise (AttributeError name)).
Proof.
  intros Hb. rewrite (build_run _ _ Hb). unfold build_result.
  unfold run, load_from_file. cbn [files record fst].
  repeat split.
  - intros ->. reflexivity.
  - intros text e -> ->. reflexivity.
  - intros e. destruct (files s1 !! surrogate_path) as [text|].
    + destruct (PysmoSurrogate_load text); cbn; [discriminate|].
      intros [= ->]. reflexivity.
    + cbn. intros [= <-]. reflexivity.
  - intros sur e. destruct (files s1 !! surrogate_path) as [text|];
      [|discriminate].
    destruct (PysmoSurrogate_load text); cbn; [|discriminate].
    intros [= ->]. unfold surrogate_inputs, surrogate_outputs.
    intros ->. reflexivity.
  - intros sur name. destruct (files s1 !! surrogate_path) as [text|];
      [|discriminate].
    destruct (PysmoSurrogate_load text); cbn; [|discriminate].
    intros [= ->]. unfold surrogate_inputs, surrogate_outputs.
    intros -> [-> | [-> [v Hv]]] Hnone.
    + rewrite Hnone. reflexivity.
    + rewrite Hv, Hnone. reflexivity.
Qed.

(** C8.  [build] points [sys.stdout] at a new [StringIO] buffer before it
    loads the surrogate, and points it back only when it reaches its last
    lines.  Once [super().build()] has returned: a [build] that returns
    leaves [sys.stdout] as [super().build()] left it; a [build] that raises
    has called [load_from_file], so it raises after the redirection, and it
    leaves [sys.stdout] on the buffer, which is not the stream it was
    before. *)
Theorem build_restores_stdout_only_on_return s0 s1 r s' :
  run super_build s0 = (Ok tt, s1) →
  allocated s1 (sys_stdout s1) →
  run build s0 = (r, s') →
  match r with
  | Ok _ => sys_stdout s' = sys_stdout s1
  | Raise _ =>
      In (load_from_file_call surrogate_path) (events_since s1 s')
      ∧ sys_stdout s' = StringIO (next_obj s1)
      ∧ sys_stdout s' ≠ sys_stdout s1
  end.
Proof.
  intros Hb Halloc Hr. destruct r as [[]|e].
  - destruct (build_returns _ _ _ Hb Hr) as (_ & sur & _ & _ & _ & _ & _ & ->).
    reflexivity.
  - destruct (build_raises _ _ _ _ Hb Hr) as (b & evs & -> & _ & _).
    split; [erewrite events_since_app by reflexivity; left; reflexivity|].
    split; [reflexivity|]. cbn.
    intros Heq. rewrite <- Heq in Halloc. cbn in Halloc. lia.
Qed.

(** *** The claims on [calculate_scaling_factors] and [initialize_build] *)

(** C2.  On a block that has the seven variables, [calculate_scaling_factors]
    returns, and for each variable it touches: a scaling factor that was
    absent is set to the default, by exactly one [set_scaling_factor] call;
    a scaling factor that was already there is kept, and no
    [set_scaling_factor] call is made for it.  A second call right after
    the first returns too, leaves the block as it is and sets nothing. *)
Theorem calculate_scaling_factors_sets_absent_once s :
  (∀ name, name ∈ scaling_targets → has_var s name) →
  ∃ s',
    run calculate_scaling_factors s = (Ok tt, s')
    ∧ (∀ name default warning,
         (name, default, warning) ∈ scaling_defaults →
         match lookup_sf (self s) name with
         | None =>
             lookup_sf (self s') name = Some default
             ∧ count (is_set_of name) (events_since s s') = 1%nat
         | Some v =>
             lookup_sf (self s') name = Some v
             ∧ count (is_set_of name) (events_since s s') = 0%nat
         end)
    ∧ ∃ s'',
        run calculate_scaling_factors s' = (Ok tt, s'')
        ∧ self s'' = self s'
        ∧ ∀ c, count (is_set_of c) (events_since s' s'') = 0%nat.
Proof.
  intros Hs. exists (defaults_applied scaling_defaults s).
  split; [apply calculate_scaling_factors_run, Hs|].
  assert (Hs' : ∀ name, name ∈ scaling_targets →
                 has_var (defaults_applied scaling_defaults s) name).
  { intros name Hin. unfold has_var. rewrite defaults_applied_attrs.
    apply Hs, Hin. }
  assert (Hset : ∀ p, p ∈ scaling_defaults →
                 lookup_sf (self (defaults_applied scaling_defaults s)) p.1.1
                 ≠ None).
  { intros [[name default] warning] Hin. cbn [fst].
    rewrite defaults_applied_lookup.
    destruct (scaling_defaults_default_of _ _ _ Hin) as [-> _].
    destruct (lookup_sf (self s) name); discriminate. }
  split.
  - intros name default warning Hin.
    destruct (scaling_defaults_default_of _ _ _ Hin) as [Hd _].
    rewrite defaults_applied_lookup,
      (events_since_app _ _ _ (defaults_applied_trace _ _)),
      count_defaults_events, Hd.
    destruct (lookup_sf (self s) name); split; reflexivity.
  - exists (defaults_applied scaling_defaults (defaults_applied scaling_defaults s)).
    split; [apply calculate_scaling_factors_run, Hs'|].
    split; [apply defaults_applied_fixed, Hset|].
    intros c.
    rewrite (events_since_app _ _ _ (defaults_applied_trace _ _)),
      count_defaults_events, defaults_applied_lookup.
    destruct (lookup_sf (self s) c); [reflexivity|].
    destruct (default_of scaling_defaults c); reflexivity.
Qed.

(** C9.  When [calculate_scaling_factors] finds no scaling factor for a
    variable, the factor it sets is 1 for [hours_storage], 1e-2 for
    [heat_load], 1e-1 for [temperature_hot], 1e-4 for [heat_annual] and
    [heat], 1e-3 for [electricity_annual] and [electricity]; and the calls it
    makes about that variable are, in this order: the query without a
    default, the query with that default ([warning] off for [hours_storage],
    on for the six others, which then log a warning), and the assignment. *)
Theorem calculate_scaling_factors_default_values s s' :
  (∀ name, name ∈ scaling_targets → has_var s name) →
  run calculate_scaling_factors s = (Ok tt, s') →
  ∀ name default warning,
    In (name, default, warning)
       [("hours_storage", 1, false);
        ("heat_load", 1e-2, true);
        ("temperature_hot", 1e-1, true);
        ("heat_annual", 1e-4, true);
        ("heat", 1e-4, true);
        ("electricity_annual", 1e-3, true);
        ("electricity", 1e-3, true)] →
    lookup_sf (self s) name = None →
    lookup_sf (self s') name = Some default
    ∧ List.filter (about name) (events_since s s')
      = ([get_scaling_factor_call name None false;
          get_scaling_factor_call name (Some default) warning]
         ++ (if warning then [log_warning name] else [])
         ++ [set_scaling_factor_call name default])%list.
Proof.
  intros Hs Hrun name default warning Hin Habsent.
  rewrite (calculate_scaling_factors_run _ Hs) in Hrun.
  assert (s' = defaults_applied scaling_defaults s) as -> by congruence.
  clear Hrun. apply (list_elem_of_In _ _) in Hin.
  destruct (scaling_defaults_default_of _ _ _ Hin) as [Hd Hp].
  rewrite defaults_applied_lookup, Habsent, Hd.
  split; [reflexivity|].
  rewrite (events_since_app _ _ _ (defaults_applied_trace _ _)),
    (filter_about_defaults_events _ _ _ scaling_defaults_NoDup), Hp.
  unfold default_events. rewrite Habsent. reflexivity.
Qed.

(** C7.  [initialize_build] does nothing: from every state it returns
    [None] and leaves the state, and with it every attribute of the block
    and its scaling factors, as it was. *)
Theorem initialize_build_does_nothing s :
  run initialize_build s = (Ok tt, s).
Proof. reflexivity. Qed.

(** * Further properties *)

(** *** [calculate_scaling_factors] from any state *)

Lemma bind_ext {A B} (m : M A) (k k' : A → M B) s :
  (∀ a s', run (k a) s' = run (k' a) s') →
  run (bind m k) s = run (bind m k') s.
Proof.
  intros Hk. unfold run, bind in *. destruct (m s) as [[a|e] s']; [|reflexivity].
  apply Hk.
Qed.

Lemma bind_ret_tt (m : M unit) s : run (bind m (λ _, ret tt)) s = run m s.
Proof. unfold run, bind, ret. destruct (m s) as [[[]|e] s']; reflexivity. Qed.

Lemma calculate_scaling_factors_table s :
  run calculate_scaling_factors s = run (run_defaults scaling_defaults) s.
Proof.
  unfold calculate_scaling_factors, scaling_defaults. cbn [run_defaults].
  repeat (apply bind_ext; intros ? ?). symmetry. apply bind_ret_tt.
Qed.

Lemma scaling_default_missing name default warning s :
  attrs (self s) !! name = None →
  run (scaling_default name default warning) s
  = (Raise (AttributeError name), s).
Proof.
  intros Hnone. unfold scaling_default, run, bind, self_attr.
  rewrite Hnone. reflexivity.
Qed.

(** The paragraphs of a table up to the first one whose variable is not
    on the block. *)
Lemma run_defaults_stops pre name default warning post s :
  (∀ p, p ∈ pre → has_var s p.1.1) →
  attrs (self s) !! name = None →
  run (run_defaults (pre ++ (name, default, warning) :: post)) s
  = (Raise (AttributeError name), defaults_applied pre s).
Proof.
  revert s. induction pre as [|[[n d] w] pre IH]; intros s Hpre Hname.
  - cbn [app run_defaults defaults_applied fold_left].
    unfold run at 1, bind.
    pose proof (scaling_default_missing name default warning s Hname) as Hr.
    unfold run in Hr. rewrite Hr. reflexivity.
  - cbn [app run_defaults defaults_applied fold_left].
    erewrite bind_run
      by (apply scaling_default_run, (Hpre (n, d, w)); left).
    apply IH.
    + intros p Hp. apply default_step_has_var, Hpre. right. exact Hp.
    + rewrite default_step_attrs. exact Hname.
Qed.

(** *** What [calculate_scaling_factors] keeps, on any block *)

Lemma kept_refl l s : kept l s s.
Proof.
  repeat (split; [auto|]). exists []. rewrite app_nil_r.
  split; [reflexivity | apply Forall_nil_2].
Qed.

Lemma kept_trans l s1 s2 s3 : kept l s1 s2 → kept l s2 s3 → kept l s1 s3.
Proof.
  intros (Ha & Ho & Hf & Hd & Hk & Hn & evs & Ht & He)
         (Ha' & Ho' & Hf' & Hd' & Hk' & Hn' & evs' & Ht' & He').
  split; [congruence|]. split; [congruence|]. split; [congruence|].
  split; [congruence|]. split; [auto|]. split.
  - intros c Hc. rewrite Hn', Hn by exact Hc. reflexivity.
  - exists (evs ++ evs')%list. rewrite Ht', Ht, <- app_assoc.
    split; [reflexivity|]. apply Forall_app. split; assumption.
Qed.

Lemma kept_weaken l l' s s' : l ⊆ l' → kept l s s' → kept l' s s'.
Proof.
  intros Hl (Ha & Ho & Hf & Hd & Hk & Hn & evs & Ht & He).
  repeat (split; [assumption|]). split.
  - intros c Hc. apply Hn. intros Hin. apply Hc, Hl, Hin.
  - exists evs. split; [exact Ht|].
    eapply Forall_impl; [exact He|].
    intros ev (name & Hin & Hev). exists name. split; [apply Hl, Hin | exact Hev].
Qed.

(** A state that differs from [s] by calls about [name] and, where [name]
    had no scaling factor, by a factor for it. *)
Lemma kept_paragraph name s b' out n fs d evs :
  attrs b' = attrs (self s) →
  out = sys_stdout s → fs = files s → d = cwd s →
  (b' = self s
   ∨ lookup_sf (self s) name = None ∧ ∃ q, b' = store_sf name q (self s)) →
  Forall (λ ev, about name ev = true) evs →
  kept [name] s (mkState b' out n fs d (trace s ++ evs)).
Proof.
  intros Ha -> -> -> Hb Hevs. unfold kept.
  cbn [self attrs sys_stdout files cwd trace].
  split; [exact Ha|]. do 3 (split; [reflexivity|]).
  split; [|split].
  - intros c v Hc. destruct Hb as [->|[Hnone [q ->]]]; [exact Hc|].
    rewrite lookup_sf_store. destruct (decide (name = c)) as [<-|];
      [congruence | exact Hc].
  - intros c Hc. apply not_elem_of_cons in Hc as [Hne _].
    destruct Hb as [->|[_ [q ->]]]; [reflexivity|].
    rewrite lookup_sf_store. destruct (decide (name = c)); [congruence|].
    reflexivity.
  - exists evs. split; [reflexivity|].
    eapply Forall_impl; [exact Hevs|].
    intros ev Hev. exists name. split; [left | exact Hev].
Qed.

Lemma scaling_default_kept name default warning s :
  kept [name] s (run (scaling_default name default warning) s).2.
Proof.
  destruct s as [[a sf] out n fs d tr].
  unfold scaling_default, get_scaling_factor, set_scaling_factor. steps.
  destruct (a !! name) as [x|] eqn:Hx; [|apply kept_refl].
  steps.
  destruct (kind_of x) eqn:Hk;
    [destruct (lookup_sf (mkBlock a sf) name) as [q|] eqn:Hq|..];
    steps; rewrite ?Hx; steps; rewrite ?Hk, ?Hq; destruct warning; steps;
    rewrite ?Hx; steps; rewrite ?Hk; steps; rewrite <- ?(app_assoc tr);
    cbn [snd];
    apply (kept_paragraph name (mkState (mkBlock a sf) out n fs d tr));
    try reflexivity;
    try (left; reflexivity);
    try (right; split; [exact Hq | eexists; reflexivity]);
    cbn [app];
    repeat (apply Forall_cons; split;
            [apply bool_decide_eq_true_2; reflexivity|]);
    apply Forall_nil_2.
Qed.

Lemma run_defaults_kept l s :
  kept (map (λ p : string * Q * bool, p.1.1) l) s (run (run_defaults l) s).2.
Proof.
  revert s. induction l as [|[[n d] w] l IH]; intros s; [apply kept_refl|].
  cbn [run_defaults map fst].
  pose proof (scaling_default_kept n d w s) as Hpar.
  unfold run at 1, bind. unfold run in Hpar.
  destruct (scaling_default n d w s) as [[[]|e] s1]; cbn [snd] in *.
  - eapply kept_trans.
    + eapply kept_weaken; [|exact Hpar].
      intros c Hc. apply elem_of_cons in Hc as [->|Hc]; [left|].
      apply elem_of_nil in Hc. contradiction.
    + eapply kept_weaken; [|apply IH]. intros c Hc. right. exact Hc.
  - eapply kept_weaken; [|exact Hpar].
    intros c Hc. apply elem_of_cons in Hc as [->|Hc]; [left|].
      apply elem_of_nil in Hc. contradiction.
Qed.

Lemma default_of_not_target c :
  c ∉ scaling_targets → default_of scaling_defaults c = None.
Proof.
  unfold scaling_targets. generalize scaling_defaults.
  induction l as [|[[n d] w] l IH]; [reflexivity|].
  cbn. intros Hnin. apply not_elem_of_cons in Hnin as [Hne Hnin].
  destruct (decide (n = c)); [congruence | auto].
Qed.

(** X6.  When the block lacks one of the variables that
    [calculate_scaling_factors] reads, the call raises the [AttributeError]
    of the first such variable in the order of its paragraphs; the
    paragraphs before it have been carried out (an absent factor set to
    its default, a present one kept), and no scaling factor of that
    variable or of a later one has been touched. *)
Theorem calculate_scaling_factors_stops_at_missing s pre name default warning post :
  scaling_defaults = (pre ++ (name, default, warning) :: post)%list →
  (∀ p, p ∈ pre → has_var s p.1.1) →
  attrs (self s) !! name = None →
  ∃ s',
    run calculate_scaling_factors s = (Raise (AttributeError name), s')
    ∧ attrs (self s') = attrs (self s)
    ∧ ∀ c, lookup_sf (self s') c
           = match lookup_sf (self s) c with
             | Some v => Some v
             | None => default_of pre c
             end.
Proof.
  intros Hsplit Hpre Hname. rewrite calculate_scaling_factors_table, Hsplit.
  rewrite (run_defaults_stops _ _ _ _ _ _ Hpre Hname).
  eexists. split; [reflexivity|]. split; [apply defaults_applied_attrs|].
  intros c. apply defaults_applied_lookup.
Qed.

(** X7.  From any state and with any outcome, [calculate_scaling_factors]
    leaves the attributes of the block, [sys.stdout], the files and the
    working directory as they are; it never changes or removes a scaling
    factor that exists; it gives no scaling factor to a component other
    than its seven variables; and every call it makes is a query, a
    warning or an assignment about one of those seven. *)
Theorem calculate_scaling_factors_keeps s r s' :
  run calculate_scaling_factors s = (r, s') →
  attrs (self s') = attrs (self s)
  ∧ sys_stdout s' = sys_stdout s
  ∧ files s' = files s
  ∧ cwd s' = cwd s
  ∧ (∀ c v, lookup_sf (self s) c = Some v → lookup_sf (self s') c = Some v)
  ∧ (∀ c, c ∉ scaling_targets → lookup_sf (self s') c = lookup_sf (self s) c)
  ∧ ∃ evs,
      trace s' = (trace s ++ evs)%list
      ∧ Forall (λ ev, ∃ name, name ∈ scaling_targets ∧ about name ev = true)
               evs.
Proof.
  rewrite calculate_scaling_factors_table. intros Hrun.
  pose proof (run_defaults_kept scaling_defaults s) as Hkept.
  rewrite Hrun in Hkept. exact Hkept.
Qed.

Lemma set_calls_default_events name default warning b :
  set_calls (default_events name default warning b)
  = match lookup_sf b name with
    | Some _ => []
    | None => [(name, default)]
    end.
Proof.
  unfold default_events. destruct (lookup_sf b name), warning; reflexivity.
Qed.

Lemma absent_defaults_default_block name default l b :
  name ∉ map (λ p : string * Q * bool, p.1.1) l →
  absent_defaults l (default_block name default b) = absent_defaults l b.
Proof.
  induction l as [|[[n d] w] l IH]; [reflexivity|].
  cbn [map fst]. intros Hnin. apply not_elem_of_cons in Hnin as [Hne Hnin].
  unfold absent_defaults in *. cbn [omap list_omap fst snd].
  rewrite lookup_sf_default_block, (IH Hnin).
  destruct (lookup_sf b n); [reflexivity|].
  destruct (decide (name = n)); [congruence | reflexivity].
Qed.

Lemma set_calls_defaults_events l b :
  NoDup (map (λ p : string * Q * bool, p.1.1) l) →
  set_calls (defaults_events l b) = absent_defaults l b.
Proof.
  revert b. induction l as [|[[n d] w] l IH]; intros b Hnd; [reflexivity|].
  cbn in Hnd. apply NoDup_cons in Hnd as [Hnin Hnd].
  cbn [defaults_events]. unfold set_calls. rewrite omap_app.
  fold (set_calls (default_events n d w b)).
  fold (set_calls (defaults_events l (default_block n d b))).
  rewrite set_calls_default_events, (IH _ Hnd),
    (absent_defaults_default_block _ _ _ _ Hnin).
  unfold absent_defaults at 2. cbn [omap list_omap fst snd].
  destruct (lookup_sf b n); reflexivity.
Qed.

(** X8.  On a block that has the seven variables, a variable whose scaling
    factor is already there is queried once by
    [calculate_scaling_factors], without a default and without a warning,
    and nothing else is asked or set about it. *)
Theorem calculate_scaling_factors_queries_present_once
    s s' name default warning v :
  (∀ n, n ∈ scaling_targets → has_var s n) →
  run calculate_scaling_factors s = (Ok tt, s') →
  (name, default, warning) ∈ scaling_defaults →
  lookup_sf (self s) name = Some v →
  List.filter (about name) (events_since s s')
  = [get_scaling_factor_call name None false].
Proof.
  intros Hs Hrun Hin Hv.
  rewrite (calculate_scaling_factors_run _ Hs) in Hrun.
  assert (s' = defaults_applied scaling_defaults s) as -> by congruence.
  destruct (scaling_defaults_default_of _ _ _ Hin) as [_ Hp].
  rewrite (events_since_app _ _ _ (defaults_applied_trace _ _)),
    (filter_about_defaults_events _ _ _ scaling_defaults_NoDup), Hp.
  unfold default_events. rewrite Hv. reflexivity.
Qed.

(** X9.  On a block that has the seven variables, the
    [set_scaling_factor] calls of [calculate_scaling_factors] are exactly
    the variables without a scaling factor, each with its default, in the
    order of the paragraphs of the method; nothing else is set. *)
Theorem calculate_scaling_factors_sets_in_order s s' :
  (∀ n, n ∈ scaling_targets → has_var s n) →
  run calculate_scaling_factors s = (Ok tt, s') →
  set_calls (events_since s s')
  = absent_defaults
      [("hours_storage", 1, false);
       ("heat_load", 1e-2, true);
       ("temperature_hot", 1e-1, true);
       ("heat_annual", 1e-4, true);
       ("heat", 1e-4, true);
       ("electricity_annual", 1e-3, true);
       ("electricity", 1e-3, true)]
      (self s).
Proof.
  intros Hs Hrun.
  rewrite (calculate_scaling_factors_run _ Hs) in Hrun.
  assert (s' = defaults_applied scaling_defaults s) as -> by congruence.
  rewrite (events_since_app _ _ _ (defaults_applied_trace _ _)).
  apply (set_calls_defaults_events scaling_defaults),
    scaling_defaults_NoDup.
Qed.

(** X5.  A block that [build] has returned is one on which
    [calculate_scaling_factors] returns.  Afterwards each of the seven
    variables has a scaling factor; a factor that [super().build()] had set
    is still what it was; and when [super().build()] had set none, whether
    or not it left a suffix for them, the factors of the block are the
    seven defaults and nothing else.  The attributes are those [build]
    left. *)
Theorem build_then_calculate_scaling_factors s0 s1 s' :
  run super_build s0 = (Ok tt, s1) →
  run build s0 = (Ok tt, s') →
  ∃ s'',
    run calculate_scaling_factors s' = (Ok tt, s'')
    ∧ attrs (self s'') = attrs (self s')
    ∧ (∀ name, name ∈ scaling_targets → is_Some (lookup_sf (self s'') name))
    ∧ (∀ c v, lookup_sf (self s1) c = Some v → lookup_sf (self s'') c = Some v)
    ∧ ((∀ c, lookup_sf (self s1) c = None) →
       (∀ name default warning,
          (name, default, warning) ∈ scaling_defaults →
          lookup_sf (self s'') name = Some default)
       ∧ ∀ c, c ∉ scaling_targets → lookup_sf (self s'') c = None).
Proof.
  intros Hb Hr.
  pose proof (built_has_scaling_targets _ _ _ Hb Hr) as Hvars.
  exists (defaults_applied scaling_defaults s').
  split; [apply calculate_scaling_factors_run, Hvars|].
  split; [apply defaults_applied_attrs|].
  assert (Hsf : ∀ c, lookup_sf (self s') c = lookup_sf (self s1) c).
  { destruct (build_returns _ _ _ Hb Hr) as (_ & sur & _ & _ & _ & _ & _ & ->).
    reflexivity. }
  split; [|split].
  - intros name Hin.
    apply list_elem_of_fmap in Hin as ([[n d] w] & -> & Hin). cbn [fst].
    rewrite defaults_applied_lookup.
    destruct (lookup_sf (self s') n); [eauto|].
    destruct (scaling_defaults_default_of _ _ _ Hin) as [-> _]. eauto.
  - intros c v Hc. rewrite defaults_applied_lookup, Hsf, Hc. reflexivity.
  - intros Hnone.
    assert (Hno : ∀ c, lookup_sf (self s') c = None)
      by (intros c; rewrite Hsf; apply Hnone).
    split.
    + intros name default warning Hin.
      rewrite defaults_applied_lookup, Hno.
      apply (scaling_defaults_default_of _ _ _ Hin).
    + intros c Hc. rewrite defaults_applied_lookup, Hno.
      apply default_of_not_target, Hc.
Qed.

(** *** [build]: what it leaves alone, what it leaves behind *)

(** X1.  Whatever its outcome after [super().build()], [build] leaves the
    scaling factors, the files and the working directory as they are,
    creates exactly one [StringIO] buffer, and leaves every attribute other
    than the eighteen it assigns as [super().build()] left it. *)
Theorem build_frame s0 s1 r s' :
  run super_build s0 = (Ok tt, s1) →
  run build s0 = (r, s') →
  scaling_factor (self s') = scaling_factor (self s1)
  ∧ files s' = files s1
  ∧ cwd s' = cwd s1
  ∧ next_obj s' = S (next_obj s1)
  ∧ ∀ name,
      name ∉ ["_tech_type"; "heat_load"; "hours_storage"; "temperature_hot";
              "heat_annual"; "electricity_annual"; "surrogate_inputs";
              "surrogate_outputs"; "input_labels"; "output_labels";
              "surrogate_file"; "surrogate_blk"; "surrogate";
              "heat_constraint"; "electricity_constraint";
              "dataset_filename"; "n_samples"; "training_fraction"] →
      attrs (self s') !! name = attrs (self s1) !! name.
Proof.
  intros Hb Hr.
  assert (Hframe : ∀ sur nm,
    nm ∉ ["_tech_type"; "heat_load"; "hours_storage"; "temperature_hot";
          "heat_annual"; "electricity_annual"; "surrogate_inputs";
          "surrogate_outputs"; "input_labels"; "output_labels";
          "surrogate_file"; "surrogate_blk"; "surrogate";
          "heat_constraint"; "electricity_constraint";
          "dataset_filename"; "n_samples"; "training_fraction"] →
    declared (attrs (self s1)) !! nm = attrs (self s1) !! nm
    ∧ narrowed sur (<["surrogate" := ASurrogate sur]>
                      (declared (attrs (self s1)))) !! nm
      = attrs (self s1) !! nm
    ∧ bound sur (attrs (self s1)) !! nm = attrs (self s1) !! nm
    ∧ <["heat_constraint" := AConstraint heat_constraint]>
        (bound sur (attrs (self s1))) !! nm
      = attrs (self s1) !! nm
    ∧ built sur (attrs (self s1)) !! nm = attrs (self s1) !! nm).
  { intros sur nm Hnin. rewrite !not_elem_of_cons in Hnin.
    destruct Hnin as (? & ? & ? & ? & ? & ? & ? & ? & ? & ? & ? & ? & ? & ?
                      & ? & ? & ? & ? & _).
    unfold built, bound, narrowed, declared.
    repeat split; repeat rewrite lookup_insert_ne by auto; reflexivity. }
  rewrite (build_run _ _ Hb) in Hr. unfold build_result in Hr.
  repeat match type of Hr with
         | match ?y with _ => _ end = _ => destruct y
         end.
  all: injection Hr as <- <-; cbn [self attrs scaling_factor files cwd next_obj].
  all: repeat (split; [reflexivity|]).
  all: intros nm Hnin;
    first [ match goal with
            | sur : Surrogate |- _ =>
                destruct (Hframe sur nm Hnin) as (H1 & H2 & H3 & H4 & H5);
                first [exact H1 | exact H2 | exact H3 | exact H4 | exact H5]
            end
          | destruct (Hframe (mkSurrogate [] [] None (λ _, [])) nm Hnin)
              as (H1 & _); exact H1 ].
Qed.

(** X2.  On a block that [build] has returned, the references in
    [surrogate_inputs] and [surrogate_outputs] are the names in
    [input_labels] and [output_labels], in the same order, and they are the
    inputs and outputs bound in [surrogate_blk] to the very surrogate held
    in [surrogate]; every one of them is a variable of the block, the
    inputs with bounds, the outputs without; no variable is both. *)
Theorem surrogate_references_resolve s0 s1 s' :
  run super_build s0 = (Ok tt, s1) →
  run build s0 = (Ok tt, s') →
  ∃ ins outs surrogate,
    attrs (self s') !! "surrogate_inputs" = Some (ARefs ins)
    ∧ attrs (self s') !! "input_labels" = Some (ALabels ins)
    ∧ attrs (self s') !! "surrogate_outputs" = Some (ARefs outs)
    ∧ attrs (self s') !! "output_labels" = Some (ALabels outs)
    ∧ attrs (self s') !! "surrogate" = Some (ASurrogate surrogate)
    ∧ attrs (self s') !! "surrogate_blk"
      = Some (ASurrogateBlock (mkSurrogateBlock (Some surrogate) ins outs))
    ∧ Forall (λ name, ∃ v, attrs (self s') !! name = Some (AVar v)
                           ∧ is_Some (bounds v)) ins
    ∧ Forall (λ name, ∃ v, attrs (self s') !! name = Some (AVar v)
                           ∧ bounds v = None) outs
    ∧ NoDup (ins ++ outs).
Proof.
  intros Hb Hr.
  destruct (build_returns _ _ _ Hb Hr) as (_ & sur & _ & _ & _ & _ & _ & ->).
  exists surrogate_inputs, surrogate_outputs, sur. cbn [self attrs].
  unfold built, bound, narrowed, declared, surrogate_inputs, surrogate_outputs.
  repeat (split; [look; reflexivity|]).
  split; [|split].
  - repeat (apply Forall_cons; split;
            [eexists; look; split; [reflexivity|];
             apply narrowed_Var_bounded; cbn; eauto|]).
    apply Forall_nil_2.
  - repeat (apply Forall_cons; split; [eexists; look; split; reflexivity|]).
    apply Forall_nil_2.
  - apply (bool_decide_unpack _). vm_compute. exact I.
Qed.

(** X3.  When the load of the artifact fails, [build] ends with the
    exception of the load and a half-built block: the five variables are
    declared and [surrogate_blk] exists without a model, but [surrogate],
    the two constraints, [dataset_filename], [n_samples] and
    [training_fraction] are as [super().build()] left them, and
    [build_model] has not been called. *)
Theorem build_load_failure_leaves_partial_block s0 s1 e :
  run super_build s0 = (Ok tt, s1) →
  (run (load_from_file surrogate_path) s1).1 = Raise e →
  ∃ s',
    run build s0 = (Raise e, s')
    ∧ (∀ name,
         name ∈ ["heat_load"; "hours_storage"; "temperature_hot";
                 "heat_annual"; "electricity_annual"] →
         has_var s' name)
    ∧ attrs (self s') !! "surrogate_blk"
      = Some (ASurrogateBlock (mkSurrogateBlock None [] []))
    ∧ (∀ name,
         name ∈ ["surrogate"; "heat_constraint"; "electricity_constraint";
                 "dataset_filename"; "n_samples"; "training_fraction"] →
         attrs (self s') !! name = attrs (self s1) !! name)
    ∧ events_since s1 s' = [load_from_file_call surrogate_path].
Proof.
  intros Hb Hload. rewrite (build_run _ _ Hb). unfold build_result.
  unfold run, load_from_file in Hload. cbn [files record fst] in Hload.
  assert (Hout : ∀ b,
    (∀ name,
       name ∈ ["heat_load"; "hours_storage"; "temperature_hot";
               "heat_annual"; "electricity_annual"] →
       has_var (mkState (mkBlock (declared (attrs (self s1))) b)
                  (StringIO (next_obj s1)) (S (next_obj s1)) (files s1)
                  (cwd s1)
                  (trace s1 ++ [load_from_file_call surrogate_path])) name)
    ∧ declared (attrs (self s1)) !! "surrogate_blk"
      = Some (ASurrogateBlock (mkSurrogateBlock None [] []))
    ∧ (∀ name,
         name ∈ ["surrogate"; "heat_constraint"; "electricity_constraint";
                 "dataset_filename"; "n_samples"; "training_fraction"] →
         declared (attrs (self s1)) !! name = attrs (self s1) !! name)).
  { intros b. split; [|split].
    - intros name Hin. apply list_elem_of_In in Hin. unfold has_var.
      cbn [self attrs]. unfold declared.
      repeat (destruct Hin as [<-|Hin]; [look; eauto|]). contradiction.
    - unfold declared. look. reflexivity.
    - intros name Hin. apply list_elem_of_In in Hin. unfold declared.
      repeat (destruct Hin as [<-|Hin]; [look; reflexivity|]).
      contradiction. }
  destruct (Hout (scaling_factor (self s1))) as (Hv & Hblk & Hrest).
  destruct (files s1 !! surrogate_path) as [text|].
  - destruct (PysmoSurrogate_load text) as [sur|e']; [discriminate|].
    injection Hload as <-. eexists. split; [reflexivity|].
    split; [exact Hv|]. split; [exact Hblk|]. split; [exact Hrest|].
    erewrite events_since_app by reflexivity. reflexivity.
  - injection Hload as <-. eexists. split; [reflexivity|].
    split; [exact Hv|]. split; [exact Hblk|]. split; [exact Hrest|].
    erewrite events_since_app by reflexivity. reflexivity.
Qed.

Lemma Forall2_pair (a b : Q) l :
  Forall2 Qeq [a; b] l → ∃ x y, l = [x; y] ∧ a == x ∧ b == y.
Proof.
  intros H. inversion H as [|? x ? l1 Hx H1]; subst.
  inversion H1 as [|? y ? l2 Hy H2]; subst. inversion H2; subst. eauto.
Qed.

(** X4.  On a block that [build] has returned, the three inputs settle the
    rest: two feasible points that agree on [heat_load], [hours_storage]
    and [temperature_hot] agree on [heat_annual] and [electricity_annual],
    and, the year-to-hour factor not being zero, on [heat] and
    [electricity]. *)
Theorem inputs_determine_outputs s0 s1 s' ρ1 ρ2 :
  run super_build s0 = (Ok tt, s1) →
  run build s0 = (Ok tt, s') →
  feasible ρ1 (self s') →
  feasible ρ2 (self s') →
  ρ1 "heat_load" = ρ2 "heat_load" →
  ρ1 "hours_storage" = ρ2 "hours_storage" →
  ρ1 "temperature_hot" = ρ2 "temperature_hot" →
  ¬ conversion_factor year hour == 0 →
  ρ1 "heat_annual" == ρ2 "heat_annual"
  ∧ ρ1 "electricity_annual" == ρ2 "electricity_annual"
  ∧ ρ1 "heat" == ρ2 "heat"
  ∧ ρ1 "electricity" == ρ2 "electricity".
Proof.
  intros Hb Hr Hf1 Hf2 Hl Hs Ht Hcf.
  destruct (build_returns _ _ _ Hb Hr) as (_ & sur & _ & _ & _ & _ & _ & ->).
  cbn [self] in Hf1, Hf2.
  assert (Hh : built sur (attrs (self s1)) !! "heat_constraint"
               = Some (AConstraint heat_constraint))
    by (unfold built; look; reflexivity).
  assert (He : built sur (attrs (self s1)) !! "electricity_constraint"
               = Some (AConstraint electricity_constraint))
    by (unfold built; look; reflexivity).
  assert (Hblk : built sur (attrs (self s1)) !! "surrogate_blk"
                 = Some (ASurrogateBlock
                           (mkSurrogateBlock (Some sur) surrogate_inputs
                                             surrogate_outputs)))
    by (unfold built, bound, narrowed; look; reflexivity).
  pose proof (Hf1 _ _ Hh) as A1. pose proof (Hf2 _ _ Hh) as A2.
  pose proof (Hf1 _ _ He) as B1. pose proof (Hf2 _ _ He) as B2.
  pose proof (Hf1 _ _ Hblk) as S1. pose proof (Hf2 _ _ Hblk) as S2.
  unfold holds in A1, A2, B1, B2. cbn in A1, A2, B1, B2, S1, S2.
  rewrite Qmult_1_l in A1, A2, B1, B2.
  rewrite <- Hl, <- Hs, <- Ht in S2.
  assert (Hann : ρ1 "heat_annual" == ρ2 "heat_annual"
                 ∧ ρ1 "electricity_annual" == ρ2 "electricity_annual").
  { destruct (Forall2_pair _ _ _ S1) as (x & y & Hxy & Hx1 & Hy1).
    rewrite Hxy in S2.
    destruct (Forall2_pair _ _ _ S2) as (x' & y' & [= <- <-] & Hx2 & Hy2).
    split; [rewrite Hx1, Hx2 | rewrite Hy1, Hy2]; reflexivity. }
  destruct Hann as [Ha Hel]. split; [exact Ha|]. split; [exact Hel|].
  split.
  - apply (Qmult_inj_r _ _ _ Hcf). rewrite <- A1, <- A2. exact Ha.
  - apply (Qmult_inj_r _ _ _ Hcf). rewrite <- B1, <- B2. exact Hel.
Qed.

Lemma build_paths_stored s0 s1 r s' :
  run super_build s0 = (Ok tt, s1) →
  run build s0 = (r, s') →
  attrs (self s') !! "surrogate_file" = Some (AStr surrogate_path)
  ∧ List.filter is_load (events_since s1 s')
    = [load_from_file_call surrogate_path]
  ∧ (r = Ok tt →
     attrs (self s') !! "dataset_filename" = Some (AStr dataset_path)).
Proof.
  intros Hb Hr. destruct r as [[]|e].
  - destruct (build_returns _ _ _ Hb Hr) as (_ & sur & _ & _ & _ & _ & _ & ->).
    split; [cbn; unfold built, bound, narrowed, declared; look; reflexivity|].
    split; [erewrite events_since_app by reflexivity; reflexivity|].
    intros _. cbn. unfold built. look. reflexivity.
  - destruct (build_raises _ _ _ _ Hb Hr) as (b & evs & -> & Hevs & Hdecl).
    split.
    + cbn. rewrite Hdecl by (apply list_elem_of_In; cbn; tauto).
      unfold declared. look. reflexivity.
    + split; [|discriminate].
      erewrite events_since_app by reflexivity.
      destruct Hevs as [-> | ->]; reflexivity.
Qed.

Lemma dirname_without_sep p : rfind_sep_succ p = 0%nat → dirname p = EmptyString.
Proof. intros H. unfold dirname. rewrite H. destruct p; reflexivity. Qed.

(** X10.  When [__file__] has no directory part, the paths of [build] are
    the bare relative names: it stores and loads
    [flat_plate_surrogate.json], and a [build] that returns stores
    [data/flat_plate_data.pkl]. *)
Theorem build_paths_relative_without_directory s0 s1 r s' :
  rfind_sep_succ module_file = 0%nat →
  run super_build s0 = (Ok tt, s1) →
  run build s0 = (r, s') →
  attrs (self s') !! "surrogate_file" = Some (AStr "flat_plate_surrogate.json")
  ∧ List.filter is_load (events_since s1 s')
    = [load_from_file_call "flat_plate_surrogate.json"]
  ∧ (r = Ok tt →
     attrs (self s') !! "dataset_filename"
     = Some (AStr "data/flat_plate_data.pkl")).
Proof.
  intros Hfile Hb Hr.
  destruct (build_paths_stored _ _ _ _ Hb Hr) as (Hf & Hl & Hd).
  unfold surrogate_path, dataset_path in *.
  rewrite (dirname_without_sep _ Hfile) in Hf, Hl, Hd.
  split; [exact Hf|]. split; [exact Hl | exact Hd].
Qed.

(** X11.  The stream lost by a [build] that raised stays lost: a later
    [build] that starts with [sys.stdout] as the failed one left it, and
    returns, puts [sys.stdout] back on the buffer of the failed [build],
    not on the stream that was there before it. *)
Theorem stdout_stays_lost_after_failed_build s0 s1 e s' t0 t1 t' :
  run super_build s0 = (Ok tt, s1) →
  allocated s1 (sys_stdout s1) →
  run build s0 = (Raise e, s') →
  sys_stdout t0 = sys_stdout s' →
  run super_build t0 = (Ok tt, t1) →
  sys_stdout t1 = sys_stdout t0 →
  run build t0 = (Ok tt, t') →
  sys_stdout t' = StringIO (next_obj s1) ∧ sys_stdout t' ≠ sys_stdout s1.
Proof.
  intros Hb Halloc Hr Ht0 Hb' Ht1 Hr'.
  destruct (build_raises _ _ _ _ Hb Hr) as (b & evs & -> & _ & _).
  destruct (build_returns _ _ _ Hb' Hr') as (_ & sur & _ & _ & _ & _ & _ & ->).
  cbn [sys_stdout] in *. rewrite Ht1, Ht0. split; [reflexivity|].
  intros Heq. rewrite <- Heq in Halloc. cbn in Halloc. lia.
Qed.

(** X12.  After [super().build()], [build] returns whenever the artifact is
    on disk where it looks for it, the decoder accepts its text, the host
    accepts the binding of the three inputs and two outputs, and the base
    class has provided the variables [heat] and [electricity]; it then
    holds the decoded surrogate and has put [sys.stdout] back. *)
Theorem build_returns_when_artifact_loads s0 s1 text surrogate :
  run super_build s0 = (Ok tt, s1) →
  files s1 !! surrogate_path = Some text →
  PysmoSurrogate_load text = Ok surrogate →
  populate_block surrogate
    ["heat_load"; "hours_storage"; "temperature_hot"]
    ["heat_annual"; "electricity_annual"] = Ok tt →
  has_var s1 "heat" →
  has_var s1 "electricity" →
  ∃ s',
    run build s0 = (Ok tt, s')
    ∧ attrs (self s') !! "surrogate" = Some (ASurrogate surrogate)
    ∧ sys_stdout s' = sys_stdout s1.
Proof.
  intros Hb Hf Hl Hp [vh Hh] [ve He].
  rewrite (build_run _ _ Hb). unfold build_result.
  unfold surrogate_inputs, surrogate_outputs. rewrite Hf, Hl, Hp, Hh, He.
  cbn [var_error]. eexists. split; [reflexivity|].
  split; [|reflexivity]. cbn. unfold built, bound, narrowed. look. reflexivity.
Qed.

(** X13.  On a block that [build] has returned with a surrogate that has
    bounds for its inputs, each of the three decision variables still has
    the guess it was declared with, and that guess lies within the bounds
    the variable has on the block exactly when it lies within the bounds
    the surrogate has for that input: [build] does not move the guess. *)
Theorem guess_within_surrogate_bounds s0 s1 s' surrogate bnds :
  run super_build s0 = (Ok tt, s1) →
  run build s0 = (Ok tt, s') →
  attrs (self s') !! "surrogate" = Some (ASurrogate surrogate) →
  sur_input_bounds surrogate = Some bnds →
  ∀ i name g lb ub,
    In (i, name, g) [(0%nat, "heat_load", 1000); (1%nat, "hours_storage", 20);
                     (2%nat, "temperature_hot", 70)] →
    bnds !! i = Some (lb, ub) →
    ∃ v, attrs (self s') !! name = Some (AVar v)
         ∧ initialize v = Some g
         ∧ (guess_within_bounds v ↔ lb <= g ∧ g <= ub).
Proof.
  intros Hb Hr Hsur Hbnds i name g lb ub Hin Hi.
  destruct (build_returns _ _ _ Hb Hr) as (_ & sur & _ & _ & _ & _ & _ & ->).
  cbn [self attrs] in *.
  assert (sur = surrogate) as ->.
  { unfold built, bound, narrowed in Hsur. revert Hsur. look.
    intros [= ->]. reflexivity. }
  assert (Hnb : ∀ d, narrowed_bounds surrogate i d
                     = (Qmax lb d.1, Qmin ub d.2))
    by (intros d; unfold narrowed_bounds; rewrite Hbnds, Hi; reflexivity).
  unfold built, bound, narrowed, declared.
  unfold heat_load_Var, hours_storage_Var, temperature_hot_Var.
  destruct Hin as [[= <- <- <-]|[[= <- <- <-]|[[= <- <- <-]|[]]]];
    look; rewrite narrowed_Var_bounds, Hnb;
    eexists; (split; [reflexivity|]); (split; [reflexivity|]);
    unfold guess_within_bounds; cbn [initialize bounds fst snd];
    rewrite Q.max_lub_iff, Q.min_glb_iff;
    (split; [intros [[H1 _] [H2 _]]; split; assumption|]);
    intros [H1 H2]; (split; split; [exact H1| |exact H2|]);
    unfold Qle; cbn; lia.
Qed.

End Properties.

(** * Runs on the sample installation *)

Section Sample.
Local Existing Instance sample_host.

Lemma sample_super_build fs :
  run super_build (sample_world fs) = (Ok tt, sample_based fs).
Proof. reflexivity. Qed.

Lemma sample_build_installed :
  run build (sample_world installed) = (Ok tt, sample_built).
Proof. vm_compute. reflexivity. Qed.

Lemma sample_build_missing :
  run build (sample_world ∅)
  = (Raise (FileNotFoundError
       "/opt/watertap_contrib/seto/solar_models/surrogate/flat_plate/flat_plate_surrogate.json"),
     sample_after_build ∅).
Proof. vm_compute. reflexivity. Qed.

Lemma sample_build_corrupted :
  run build (sample_world corrupted)
  = (Raise (HostError "JSONDecodeError"), sample_after_build corrupted).
Proof. vm_compute. reflexivity. Qed.

Lemma has_var_by_lookup s name :
  var_error name (attrs (self s) !! name) = None → has_var s name.
Proof. apply var_error_None. Qed.

Lemma sample_built_has_vars name :
  name ∈ scaling_targets → has_var sample_built name.
Proof.
  intros Hin. apply list_elem_of_In in Hin.
  repeat (destruct Hin as [<-|Hin];
          [apply has_var_by_lookup; vm_compute; reflexivity|]).
  contradiction.
Qed.

Lemma has_var_store_sf c v s name :
  has_var s name → has_var (with_self (store_sf c v) s) name.
Proof. intros H. exact H. Qed.

Lemma sample_prescaled_has_vars name :
  name ∈ scaling_targets → has_var sample_prescaled name.
Proof. intros Hin. apply has_var_store_sf, sample_built_has_vars, Hin. Qed.

Lemma feasible_by_list ρ b :
  Forall (λ kv : string * Attr,
            match kv.2 with
            | AVar v => in_bounds (ρ kv.1) v
            | AConstraint c => holds ρ c
            | ASurrogateBlock sb => surrogate_holds ρ sb
            | _ => True
            end) (map_to_list (attrs b)) →
  feasible ρ b.
Proof.
  intros Hall name x Hx. rewrite Forall_forall in Hall.
  apply (Hall (name, x)), elem_of_map_to_list, Hx.
Qed.

Lemma sample_point_feasible : feasible sample_point (self sample_built).
Proof.
  apply feasible_by_list. vm_compute.
  repeat (apply Forall_cons; split; [try exact I|]).
  all: try apply Forall_nil_2.
  all: first [ reflexivity
             | split; intros H; discriminate H
             | repeat (apply Forall2_cons; [vm_compute; reflexivity|]);
               apply Forall2_nil ].
Qed.
Lemma sample_surrogate_path :
  surrogate_path
  = "/opt/watertap_contrib/seto/solar_models/surrogate/flat_plate/flat_plate_surrogate.json".
Proof. vm_compute. reflexivity. Qed.

Lemma sample_dataset_path :
  dataset_path
  = "/opt/watertap_contrib/seto/solar_models/surrogate/flat_plate/data/flat_plate_data.pkl".
Proof. vm_compute. reflexivity. Qed.

Lemma sample_build_elsewhere :
  run build (with_cwd "/tmp" (sample_world installed))
  = (Ok tt, (run build (with_cwd "/tmp" (sample_world installed))).2).
Proof. vm_compute. reflexivity. Qed.

Lemma sample_super_build_elsewhere :
  run super_build (with_cwd "/tmp" (sample_world installed))
  = (Ok tt, (run super_build (with_cwd "/tmp" (sample_world installed))).2).
Proof. reflexivity. Qed.

Lemma sample_calculate_scaling_factors :
  run calculate_scaling_factors sample_built
  = (Ok tt, (run calculate_scaling_factors sample_built).2).
Proof. vm_compute. reflexivity. Qed.

Lemma sample_built_unscaled : lookup_sf (self sample_built) "heat_load" = None.
Proof. vm_compute. reflexivity. Qed.

Lemma sample_prescaled_heat_load :
  lookup_sf (self sample_prescaled) "heat_load" = Some 5.
Proof. vm_compute. reflexivity. Qed.

Lemma sample_prescaled_heat : lookup_sf (self sample_prescaled) "heat" = None.
Proof. vm_compute. reflexivity. Qed.

Lemma sample_built_surrogate :
  attrs (self sample_built) !! "surrogate" = Some (ASurrogate sample_surrogate).
Proof. vm_compute. reflexivity. Qed.

Lemma sample_corrupted_file :
  files (sample_based corrupted) !! surrogate_path = Some "<html>"%string.
Proof. vm_compute. reflexivity. Qed.

Lemma sample_missing_file : files (sample_based ∅) !! surrogate_path = None.
Proof. vm_compute. reflexivity. Qed.

(** C1 on the sample block: the constraints are there, the sample point is
    feasible, and at it the annual outputs are 8766 times the base-class
    quantities. *)
Lemma build_adds_two_conversion_constraints_witness :
  run super_build (sample_world installed) = (Ok tt, sample_based installed)
  ∧ run build (sample_world installed) = (Ok tt, sample_built)
  ∧ attrs (self sample_built) !! "heat_constraint"
    = Some (AConstraint (mkConstraint (ERef "heat_annual")
                           (EMul (ERef "heat") (EConvert 1 year hour))))
  ∧ feasible sample_point (self sample_built)
  ∧ sample_point "heat_annual" == sample_point "heat" * 8766
  ∧ sample_point "electricity_annual" == sample_point "electricity" * 8766.
Proof.
  destruct (build_adds_two_conversion_constraints _ _ _
              (sample_super_build installed) sample_build_installed)
    as (Hh & _ & _ & Hpoint).
  destruct (Hpoint sample_point sample_point_feasible) as (Ha & Hb & _).
  split; [apply sample_super_build|]. split; [apply sample_build_installed|].
  split; [exact Hh|]. split; [apply sample_point_feasible|].
  split; [exact Ha | exact Hb].
Defined.

(** C2 on the sample block with a chosen factor for [heat_load]: the
    chosen factor stays, the absent one of [heat] becomes the default. *)
Lemma calculate_scaling_factors_sets_absent_once_witness :
  (∀ name, name ∈ scaling_targets → has_var sample_prescaled name)
  ∧ ∃ s',
      run calculate_scaling_factors sample_prescaled = (Ok tt, s')
      ∧ (lookup_sf (self s') "heat_load" = Some 5
         ∧ count (is_set_of "heat_load") (events_since sample_prescaled s')
           = 0%nat)
      ∧ (lookup_sf (self s') "heat" = Some 1e-4
         ∧ count (is_set_of "heat") (events_since sample_prescaled s')
           = 1%nat).
Proof.
  split; [exact sample_prescaled_has_vars|].
  destruct (calculate_scaling_factors_sets_absent_once sample_prescaled
              sample_prescaled_has_vars) as (s' & Hrun & Hall & _).
  exists s'. split; [exact Hrun|]. split.
  - pose proof (Hall "heat_load" 1e-2 true) as H.
    rewrite sample_prescaled_heat_load in H. apply H.
    apply list_elem_of_In. cbn. tauto.
  - pose proof (Hall "heat" 1e-4 true) as H.
    rewrite sample_prescaled_heat in H. apply H.
    apply list_elem_of_In. cbn. tauto.
Defined.

(** C9 on the sample block, which has no scaling factor yet. *)
Lemma calculate_scaling_factors_default_values_witness :
  (∀ name, name ∈ scaling_targets → has_var sample_built name)
  ∧ run calculate_scaling_factors sample_built
    = (Ok tt, (run calculate_scaling_factors sample_built).2)
  ∧ lookup_sf (self sample_built) "heat_load" = None
  ∧ lookup_sf (self (run calculate_scaling_factors sample_built).2) "heat_load"
    = Some 1e-2
  ∧ List.filter (about "heat_load")
      (events_since sample_built (run calculate_scaling_factors sample_built).2)
    = [get_scaling_factor_call "heat_load" None false;
       get_scaling_factor_call "heat_load" (Some 1e-2) true;
       log_warning "heat_load";
       set_scaling_factor_call "heat_load" 1e-2].
Proof.
  split; [exact sample_built_has_vars|].
  split; [exact sample_calculate_scaling_factors|].
  split; [exact sample_built_unscaled|].
  apply (calculate_scaling_factors_default_values sample_built _
           sample_built_has_vars sample_calculate_scaling_factors
           "heat_load" 1e-2 true).
  - cbn. tauto.
  - exact sample_built_unscaled.
Defined.

(** C3 on the sample block. *)
Lemma surrogate_loaded_once_and_kept_witness :
  run super_build (sample_world installed) = (Ok tt, sample_based installed)
  ∧ run build (sample_world installed) = (Ok tt, sample_built)
  ∧ ∃ surrogate,
      count is_load (events_since (sample_based installed) sample_built) = 1%nat
      ∧ attrs (self sample_built) !! "surrogate" = Some (ASurrogate surrogate)
      ∧ attrs (self (after_calls [m_calculate_scaling_factors;
                                  m_initialize_build;
                                  m_calculate_scaling_factors] sample_built))
          !! "surrogate" = Some (ASurrogate surrogate).
Proof.
  split; [apply sample_super_build|]. split; [apply sample_build_installed|].
  destruct (surrogate_loaded_once_and_kept _ _ _
              (sample_super_build installed) sample_build_installed)
    as (text & surrogate & _ & _ & Hcount & Hsur & _ & Hkept).
  exists surrogate. split; [exact Hcount|]. split; [exact Hsur|].
  apply Hkept.
Defined.

(** C4 as amended, on the sample block: the surrogate was trained on
    [heat_load] in [200, 800], and those are the bounds on the block. *)
Lemma build_declares_three_bounded_two_annual_witness :
  run super_build (sample_world installed) = (Ok tt, sample_based installed)
  ∧ run build (sample_world installed) = (Ok tt, sample_built)
  ∧ attrs (self sample_built) !! "surrogate" = Some (ASurrogate sample_surrogate)
  ∧ narrowed_bounds sample_surrogate 0 (100, 1000) = (200, 800)
  ∧ ∃ surrogate,
      attrs (self sample_built) !! "surrogate" = Some (ASurrogate surrogate)
      ∧ attrs (self sample_built) !! "heat_load"
        = Some (AVar (mkVar (Some 1000)
                            (Some (narrowed_bounds surrogate 0 (100, 1000)))
                            (Some MW) "Rated plant heat capacity in MWt"))
      ∧ attrs (self sample_built) !! "heat_annual"
        = Some (AVar (mkVar (Some 1000) None (Some kWh)
                            "Annual heat generated by flat plate")).
Proof.
  split; [apply sample_super_build|]. split; [apply sample_build_installed|].
  split; [exact sample_built_surrogate|]. split; [vm_compute; reflexivity|].
  destruct (build_declares_three_bounded_two_annual _ _ _
              (sample_super_build installed) sample_build_installed)
    as (_ & sur & Hs & Hl & _ & _ & _ & _ & Ha & _).
  exists sur. split; [exact Hs|]. split; [exact Hl | exact Ha].
Defined.

(** C4 as the spec words it fails.  The five declarations of [build] put
    three variables besides the two annual ones on a new block, not six.
    And on any installation whose base class leaves just [heat] and
    [electricity] as variables on a new block, however it declares them
    and whatever the artifact holds, a block that [build] has returned has
    five variables besides the two annual ones: there are not six, bounded
    or not. *)
Lemma six_bounded_decision_variables_counterexample :
  (run declare_variables (sample_world ∅) = (Ok tt, sample_declared)
   ∧ length (variables (self sample_declared)) = 5%nat
   ∧ length (decision_variables (self sample_declared)) = 3%nat
   ∧ length (List.filter (λ nv, fully_declared nv.2)
                         (variables (self sample_declared))) = 3%nat
   ∧ ¬ six_bounded_decision_variables (self sample_declared))
  ∧ ∀ (host : Host) (heat electricity : Var) fs s',
      run (@super_build host) (sample_world fs)
      = (Ok tt,
         mkState (mkBlock (<["electricity" := AVar electricity]>
                             (<["heat" := AVar heat]> ∅)) None)
                 (TextIO 1) 0 fs "/home/user" []) →
      run (@build host) (sample_world fs) = (Ok tt, s') →
      length (decision_variables (self s')) = 5%nat
      ∧ ¬ six_bounded_decision_variables (self s').
Proof.
  split.
  - split; [vm_compute; reflexivity|].
    assert (H3 : length (decision_variables (self sample_declared)) = 3%nat)
      by (vm_compute; reflexivity).
    split; [vm_compute; reflexivity|]. split; [exact H3|].
    split; [vm_compute; reflexivity|].
    intros [H6 _]. rewrite H3 in H6. discriminate H6.
  - intros host heat electricity fs s' Hb Hr.
    destruct (@build_returns host _ _ _ Hb Hr)
      as (text & sur & _ & _ & _ & _ & _ & ->).
    assert (H5 : ∀ sf,
      length (decision_variables
                (mkBlock (built sur (<["electricity" := AVar electricity]>
                                       (<["heat" := AVar heat]> ∅))) sf))
      = 5%nat) by (intros sf; vm_compute; reflexivity).
    cbn [self attrs]. split; [apply H5|].
    intros [H6 _]. rewrite H5 in H6. discriminate H6.
Qed.

(** C5 on the sample installation, started from two working
    directories. *)
Lemma build_paths_beside_module_witness :
  run super_build (sample_world installed) = (Ok tt, sample_based installed)
  ∧ run build (sample_world installed) = (Ok tt, sample_built)
  ∧ run super_build (with_cwd "/tmp" (sample_world installed))
    = (Ok tt, (run super_build (with_cwd "/tmp" (sample_world installed))).2)
  ∧ run build (with_cwd "/tmp" (sample_world installed))
    = (Ok tt, (run build (with_cwd "/tmp" (sample_world installed))).2)
  ∧ attrs (self sample_built) !! "surrogate_file"
    = Some (AStr "/opt/watertap_contrib/seto/solar_models/surrogate/flat_plate/flat_plate_surrogate.json")
  ∧ attrs (self sample_built) !! "dataset_filename"
    = Some (AStr "/opt/watertap_contrib/seto/solar_models/surrogate/flat_plate/data/flat_plate_data.pkl")
  ∧ attrs (self (run build (with_cwd "/tmp" (sample_world installed))).2)
      !! "surrogate_file"
    = attrs (self sample_built) !! "surrogate_file".
Proof.
  split; [apply sample_super_build|]. split; [apply sample_build_installed|].
  split; [apply sample_super_build_elsewhere|].
  split; [apply sample_build_elsewhere|].
  destruct (build_paths_beside_module _ _ _ _ "/tmp" _ _ _
              (sample_super_build installed) sample_build_installed
              sample_super_build_elsewhere sample_build_elsewhere)
    as (Hf & _ & Hd & Hf' & _).
  fold surrogate_path in Hf. fold dataset_path in Hd.
  rewrite sample_surrogate_path in Hf. rewrite sample_dataset_path in Hd.
  split; [exact Hf|]. split; [exact (Hd eq_refl) | exact Hf'].
Defined.

(** C6 on the sample installation with a file that is not a surrogate, and
    with no file at all. *)
Lemma build_propagates_errors_witness :
  run super_build (sample_world corrupted) = (Ok tt, sample_based corrupted)
  ∧ (run build (sample_world corrupted)).1 = Raise (HostError "JSONDecodeError")
  ∧ run super_build (sample_world ∅) = (Ok tt, sample_based ∅)
  ∧ (run build (sample_world ∅)).1 = Raise (FileNotFoundError surrogate_path).
Proof.
  split; [apply sample_super_build|].
  destruct (build_propagates_errors _ _ (sample_super_build corrupted))
    as (_ & Hdecode & _).
  split; [exact (Hdecode _ _ sample_corrupted_file eq_refl)|].
  split; [apply sample_super_build|].
  destruct (build_propagates_errors _ _ (sample_super_build ∅))
    as (Hmissing & _).
  exact (Hmissing sample_missing_file).
Defined.

(** C8 on the sample installation with a file that is not a surrogate:
    [sys.stdout] was stream 1 and is left on the buffer. *)
Lemma build_restores_stdout_only_on_return_witness :
  run super_build (sample_world corrupted) = (Ok tt, sample_based corrupted)
  ∧ allocated (sample_based corrupted) (sys_stdout (sample_based corrupted))
  ∧ run build (sample_world corrupted)
    = (Raise (HostError "JSONDecodeError"), sample_after_build corrupted)
  ∧ sys_stdout (sample_after_build corrupted)
    = StringIO (next_obj (sample_based corrupted))
  ∧ sys_stdout (sample_after_build corrupted)
    ≠ sys_stdout (sample_based corrupted).
Proof.
  split; [apply sample_super_build|]. split; [exact I|].
  split; [apply sample_build_corrupted|].
  destruct (build_restores_stdout_only_on_return _ _ _ _
              (sample_super_build corrupted) I sample_build_corrupted)
    as (_ & Hbuf & Hne).
  split; [exact Hbuf | exact Hne].
Defined.

(** C10 on the sample installation: [heat_load] is declared at 1000 in
    [100, 1000], and on the sample block it has that guess and bounds
    within the declared ones. *)
Lemma declared_guesses_within_bounds_witness :
  run super_build (sample_world installed) = (Ok tt, sample_based installed)
  ∧ run build (sample_world installed) = (Ok tt, sample_built)
  ∧ (∃ sd v,
       run declare_variables (sample_world ∅) = (Ok tt, sd)
       ∧ attrs (self sd) !! "heat_load" = Some (AVar v)
       ∧ initialize v = Some 1000 ∧ bounds v = Some (100, 1000)
       ∧ at_upper_bound v)
  ∧ ∃ v lb ub,
      attrs (self sample_built) !! "heat_load" = Some (AVar v)
      ∧ initialize v = Some 1000 ∧ bounds v = Some (lb, ub)
      ∧ 100 <= lb ∧ ub <= 1000.
Proof.
  split; [apply sample_super_build|]. split; [apply sample_build_installed|].
  destruct (declared_guesses_within_bounds _ _ _ _
              (sample_super_build installed) sample_build_installed)
    as (Hdecl & Hblock & _).
  split; [|exact Hblock].
  destruct (Hdecl (sample_world ∅)) as (sd & Hrun & (v & Hv) & _).
  exists sd, v. split; [exact Hrun | exact Hv].
Defined.

End Sample.

(** * Further runs on the sample installations *)

Section MoreSample.
Local Existing Instance sample_host.

Ltac feasible_by_computation :=
  apply feasible_by_list; vm_compute;
  repeat (apply Forall_cons; split; [try exact I|]);
  try apply Forall_nil_2;
  first [ reflexivity
        | split; intros H; discriminate H
        | repeat (apply Forall2_cons; [vm_compute; reflexivity|]);
          apply Forall2_nil ].

Lemma sample_point_reduced_feasible :
  feasible sample_point_reduced (self sample_built).
Proof. feasible_by_computation. Qed.

Lemma sample_based_has_base_vars fs name :
  name ∈ ["heat"; "electricity"] → has_var (sample_based fs) name.
Proof.
  intros Hin. apply list_elem_of_In in Hin.
  repeat (destruct Hin as [<-|Hin]; [eexists; reflexivity|]). contradiction.
Qed.

Lemma sample_load_missing :
  (run (load_from_file surrogate_path) (sample_based ∅)).1
  = Raise (FileNotFoundError surrogate_path).
Proof. vm_compute. reflexivity. Qed.

Lemma sample_installed_file :
  files (sample_based installed) !! surrogate_path = Some sample_artifact.
Proof. vm_compute. reflexivity. Qed.

Lemma sample_prescaled_run :
  run calculate_scaling_factors sample_prescaled
  = (Ok tt, (run calculate_scaling_factors sample_prescaled).2).
Proof. vm_compute. reflexivity. Qed.

Lemma sample_prescaled_absent :
  absent_defaults
    [("hours_storage", 1, false);
     ("heat_load", 1e-2, true);
     ("temperature_hot", 1e-1, true);
     ("heat_annual", 1e-4, true);
     ("heat", 1e-4, true);
     ("electricity_annual", 1e-3, true);
     ("electricity", 1e-3, true)]
    (self sample_prescaled)
  = [("hours_storage", 1); ("temperature_hot", 1e-1); ("heat_annual", 1e-4);
     ("heat", 1e-4); ("electricity_annual", 1e-3); ("electricity", 1e-3)].
Proof. vm_compute. reflexivity. Qed.

Lemma sample_overwritten_hours_storage :
  attrs (self sample_overwritten) !! "hours_storage" = Some (ANum 3).
Proof. vm_compute. reflexivity. Qed.

Lemma sample_overwritten_run :
  run calculate_scaling_factors sample_overwritten
  = (Ok tt, (run calculate_scaling_factors sample_overwritten).2).
Proof. vm_compute. reflexivity. Qed.

Lemma sample_suffixed_super_build :
  run super_build sample_suffixed = (Ok tt, (run super_build sample_suffixed).2).
Proof. reflexivity. Qed.

Lemma sample_suffixed_build :
  run build sample_suffixed = (Ok tt, (run build sample_suffixed).2).
Proof. vm_compute. reflexivity. Qed.

Lemma sample_suffixed_no_factors c :
  lookup_sf (self (run super_build sample_suffixed).2) c = None.
Proof. apply lookup_empty. Qed.

Lemma bare_super_build :
  run (@super_build bare_host) (sample_world bare_files)
  = (Ok tt, sample_world bare_files).
Proof. reflexivity. Qed.

Lemma bare_build :
  run (@build bare_host) (sample_world bare_files)
  = (Raise (AttributeError "heat"), bare_after_build).
Proof. vm_compute. reflexivity. Qed.

Lemma bare_after_build_has_vars p :
  p ∈ [("hours_storage", 1, false); ("heat_load", 1e-2, true);
       ("temperature_hot", 1e-1, true); ("heat_annual", 1e-4, true)] →
  has_var bare_after_build p.1.1.
Proof.
  intros Hin. apply list_elem_of_In in Hin.
  repeat (destruct Hin as [<-|Hin];
          [apply has_var_by_lookup; vm_compute; reflexivity|]).
  contradiction.
Qed.

Lemma bare_after_build_no_heat : attrs (self bare_after_build) !! "heat" = None.
Proof. vm_compute. reflexivity. Qed.

Lemma bare_after_build_unscaled c : lookup_sf (self bare_after_build) c = None.
Proof.
  assert (H : scaling_factor (self bare_after_build) = None)
    by (vm_compute; reflexivity).
  unfold lookup_sf. rewrite H. reflexivity.
Qed.

Lemma sample_retry_super_build :
  run super_build sample_retry = (Ok tt, (run super_build sample_retry).2).
Proof. reflexivity. Qed.

Lemma sample_retry_stdout :
  sys_stdout sample_retry = sys_stdout (sample_after_build corrupted).
Proof. vm_compute. reflexivity. Qed.

Lemma sample_retry_based_stdout :
  sys_stdout (run super_build sample_retry).2 = sys_stdout sample_retry.
Proof. vm_compute. reflexivity. Qed.

Lemma sample_retry_build :
  run build sample_retry = (Ok tt, (run build sample_retry).2).
Proof. vm_compute. reflexivity. Qed.

(** X1 on the sample installation with the corrupted artifact. *)
Lemma build_frame_witness :
  run super_build (sample_world corrupted) = (Ok tt, sample_based corrupted)
  ∧ run build (sample_world corrupted)
    = (Raise (HostError "JSONDecodeError"), sample_after_build corrupted)
  ∧ scaling_factor (self (sample_after_build corrupted))
    = scaling_factor (self (sample_based corrupted))
  ∧ files (sample_after_build corrupted) = files (sample_based corrupted)
  ∧ next_obj (sample_after_build corrupted)
    = S (next_obj (sample_based corrupted)).
Proof.
  split; [apply sample_super_build|]. split; [apply sample_build_corrupted|].
  destruct (build_frame _ _ _ _ (sample_super_build corrupted)
              sample_build_corrupted) as (Hsf & Hfiles & _ & Hobj & _).
  split; [exact Hsf|]. split; [exact Hfiles | exact Hobj].
Defined.

(** X2 on the sample block. *)
Lemma surrogate_references_resolve_witness :
  run super_build (sample_world installed) = (Ok tt, sample_based installed)
  ∧ run build (sample_world installed) = (Ok tt, sample_built)
  ∧ ∃ ins outs,
      attrs (self sample_built) !! "surrogate_inputs" = Some (ARefs ins)
      ∧ attrs (self sample_built) !! "input_labels" = Some (ALabels ins)
      ∧ attrs (self sample_built) !! "surrogate_outputs" = Some (ARefs outs)
      ∧ attrs (self sample_built) !! "output_labels" = Some (ALabels outs)
      ∧ NoDup (ins ++ outs).
Proof.
  split; [apply sample_super_build|]. split; [apply sample_build_installed|].
  destruct (surrogate_references_resolve _ _ _
              (sample_super_build installed) sample_build_installed)
    as (ins & outs & sur & H1 & H2 & H3 & H4 & _ & _ & _ & _ & H9).
  exists ins, outs. repeat (split; [assumption|]). exact H9.
Defined.

(** X3 on the sample installation without the artifact. *)
Lemma build_load_failure_leaves_partial_block_witness :
  run super_build (sample_world ∅) = (Ok tt, sample_based ∅)
  ∧ (run (load_from_file surrogate_path) (sample_based ∅)).1
    = Raise (FileNotFoundError surrogate_path)
  ∧ ∃ s',
      run build (sample_world ∅) = (Raise (FileNotFoundError surrogate_path), s')
      ∧ attrs (self s') !! "surrogate_blk"
        = Some (ASurrogateBlock (mkSurrogateBlock None [] []))
      ∧ events_since (sample_based ∅) s'
        = [load_from_file_call surrogate_path].
Proof.
  split; [apply sample_super_build|]. split; [apply sample_load_missing|].
  destruct (build_load_failure_leaves_partial_block _ _ _
              (sample_super_build ∅) sample_load_missing)
    as (s' & Hrun & _ & Hblk & _ & Hev).
  exists s'. split; [exact Hrun|]. split; [exact Hblk | exact Hev].
Defined.

(** X4 on the sample block, at two points that write [heat] and
    [electricity] as different fractions. *)
Lemma inputs_determine_outputs_witness :
  run super_build (sample_world installed) = (Ok tt, sample_based installed)
  ∧ run build (sample_world installed) = (Ok tt, sample_built)
  ∧ feasible sample_point (self sample_built)
  ∧ feasible sample_point_reduced (self sample_built)
  ∧ ¬ conversion_factor year hour == 0
  ∧ sample_point "heat" == sample_point_reduced "heat"
  ∧ sample_point "electricity" == sample_point_reduced "electricity".
Proof.
  assert (Hcf : ¬ conversion_factor year hour == 0) by (intros H; discriminate H).
  split; [apply sample_super_build|]. split; [apply sample_build_installed|].
  split; [apply sample_point_feasible|].
  split; [apply sample_point_reduced_feasible|]. split; [exact Hcf|].
  destruct (inputs_determine_outputs _ _ _ sample_point sample_point_reduced
              (sample_super_build installed) sample_build_installed
              sample_point_feasible sample_point_reduced_feasible
              eq_refl eq_refl eq_refl Hcf) as (_ & _ & Hh & He).
  split; [exact Hh | exact He].
Defined.

(** X5 on the sample installation, the new block having an empty suffix
    for scaling factors already. *)
Lemma build_then_calculate_scaling_factors_witness :
  run super_build sample_suffixed = (Ok tt, (run super_build sample_suffixed).2)
  ∧ run build sample_suffixed = (Ok tt, (run build sample_suffixed).2)
  ∧ scaling_factor (self (run super_build sample_suffixed).2) = Some ∅
  ∧ ∃ s'',
      run calculate_scaling_factors (run build sample_suffixed).2 = (Ok tt, s'')
      ∧ lookup_sf (self s'') "electricity" = Some 1e-3
      ∧ lookup_sf (self s'') "surrogate_blk" = None.
Proof.
  split; [exact sample_suffixed_super_build|].
  split; [exact sample_suffixed_build|].
  split; [reflexivity|].
  destruct (build_then_calculate_scaling_factors _ _ _
              sample_suffixed_super_build sample_suffixed_build)
    as (s'' & Hrun & _ & _ & _ & Hnone).
  destruct (Hnone sample_suffixed_no_factors) as [Hdef Hother].
  exists s''. split; [exact Hrun|]. split.
  - apply (Hdef "electricity" 1e-3 true), list_elem_of_In. cbn. tauto.
  - apply Hother. intros Hin. apply list_elem_of_In in Hin. cbn in Hin.
    repeat (destruct Hin as [Hin|Hin]; [discriminate Hin|]). exact Hin.
Defined.

(** X6 on the block of the second installation, where [build] stopped at
    the missing [heat]. *)
Lemma calculate_scaling_factors_stops_at_missing_witness :
  (∀ p, p ∈ [("hours_storage", 1, false); ("heat_load", 1e-2, true);
             ("temperature_hot", 1e-1, true); ("heat_annual", 1e-4, true)] →
        has_var bare_after_build p.1.1)
  ∧ attrs (self bare_after_build) !! "heat" = None
  ∧ ∃ s',
      run calculate_scaling_factors bare_after_build
      = (Raise (AttributeError "heat"), s')
      ∧ lookup_sf (self s') "heat_annual" = Some 1e-4
      ∧ lookup_sf (self s') "heat" = None
      ∧ lookup_sf (self s') "electricity" = None.
Proof.
  split; [exact bare_after_build_has_vars|].
  split; [exact bare_after_build_no_heat|].
  destruct (calculate_scaling_factors_stops_at_missing bare_after_build
              [("hours_storage", 1, false); ("heat_load", 1e-2, true);
               ("temperature_hot", 1e-1, true); ("heat_annual", 1e-4, true)]
              "heat" 1e-4 true
              [("electricity_annual", 1e-3, true); ("electricity", 1e-3, true)]
              eq_refl bare_after_build_has_vars bare_after_build_no_heat)
    as (s' & Hrun & _ & Hlook).
  exists s'. split; [exact Hrun|].
  split; [|split]; rewrite Hlook, bare_after_build_unscaled; reflexivity.
Defined.

(** X7 on the sample block with [hours_storage] overwritten by a number:
    the call goes through its seven paragraphs and returns, and the number
    gets no scaling factor. *)
Lemma calculate_scaling_factors_keeps_witness :
  attrs (self sample_overwritten) !! "hours_storage" = Some (ANum 3)
  ∧ run calculate_scaling_factors sample_overwritten
    = (Ok tt, (run calculate_scaling_factors sample_overwritten).2)
  ∧ attrs (self (run calculate_scaling_factors sample_overwritten).2)
    = attrs (self sample_overwritten)
  ∧ sys_stdout (run calculate_scaling_factors sample_overwritten).2
    = sys_stdout sample_overwritten
  ∧ lookup_sf (self (run calculate_scaling_factors sample_overwritten).2)
      "surrogate_blk"
    = lookup_sf (self sample_overwritten) "surrogate_blk".
Proof.
  split; [exact sample_overwritten_hours_storage|].
  split; [exact sample_overwritten_run|].
  destruct (calculate_scaling_factors_keeps _ _ _ sample_overwritten_run)
    as (Ha & Hout & _ & _ & _ & Hother & _).
  split; [exact Ha|]. split; [exact Hout|].
  apply Hother. intros Hin. apply list_elem_of_In in Hin. cbn in Hin.
  repeat (destruct Hin as [Hin|Hin]; [discriminate Hin|]). exact Hin.
Defined.

(** X8 on the sample block with a chosen factor for [heat_load]. *)
Lemma calculate_scaling_factors_queries_present_once_witness :
  (∀ n, n ∈ scaling_targets → has_var sample_prescaled n)
  ∧ run calculate_scaling_factors sample_prescaled
    = (Ok tt, (run calculate_scaling_factors sample_prescaled).2)
  ∧ lookup_sf (self sample_prescaled) "heat_load" = Some 5
  ∧ List.filter (about "heat_load")
      (events_since sample_prescaled
         (run calculate_scaling_factors sample_prescaled).2)
    = [get_scaling_factor_call "heat_load" None false].
Proof.
  split; [exact sample_prescaled_has_vars|].
  split; [exact sample_prescaled_run|].
  split; [exact sample_prescaled_heat_load|].
  apply (calculate_scaling_factors_queries_present_once sample_prescaled _
           "heat_load" 1e-2 true 5 sample_prescaled_has_vars
           sample_prescaled_run).
  - apply list_elem_of_In. cbn. tauto.
  - exact sample_prescaled_heat_load.
Defined.

(** X9 on the sample block with a chosen factor for [heat_load]: six
    assignments, in the order of the method, none for [heat_load]. *)
Lemma calculate_scaling_factors_sets_in_order_witness :
  (∀ n, n ∈ scaling_targets → has_var sample_prescaled n)
  ∧ run calculate_scaling_factors sample_prescaled
    = (Ok tt, (run calculate_scaling_factors sample_prescaled).2)
  ∧ set_calls (events_since sample_prescaled
                 (run calculate_scaling_factors sample_prescaled).2)
    = [("hours_storage", 1); ("temperature_hot", 1e-1); ("heat_annual", 1e-4);
       ("heat", 1e-4); ("electricity_annual", 1e-3); ("electricity", 1e-3)].
Proof.
  split; [exact sample_prescaled_has_vars|].
  split; [exact sample_prescaled_run|].
  rewrite (calculate_scaling_factors_sets_in_order sample_prescaled _
             sample_prescaled_has_vars sample_prescaled_run).
  exact sample_prescaled_absent.
Defined.

(** X10 on the second installation. *)
Lemma build_paths_relative_without_directory_witness :
  rfind_sep_succ (@module_file bare_host) = 0%nat
  ∧ run (@super_build bare_host) (sample_world bare_files)
    = (Ok tt, sample_world bare_files)
  ∧ run (@build bare_host) (sample_world bare_files)
    = (Raise (AttributeError "heat"), bare_after_build)
  ∧ attrs (self bare_after_build) !! "surrogate_file"
    = Some (AStr "flat_plate_surrogate.json")
  ∧ List.filter is_load (events_since (sample_world bare_files) bare_after_build)
    = [load_from_file_call "flat_plate_surrogate.json"].
Proof.
  split; [reflexivity|]. split; [exact bare_super_build|].
  split; [exact bare_build|].
  destruct (@build_paths_relative_without_directory bare_host _ _ _ _
              eq_refl bare_super_build bare_build) as (Hf & Hl & _).
  split; [exact Hf | exact Hl].
Defined.

(** X11 on the sample installation: a [build] on the corrupted artifact,
    then a [build] of a new block on the repaired one. *)
Lemma stdout_stays_lost_after_failed_build_witness :
  run super_build (sample_world corrupted) = (Ok tt, sample_based corrupted)
  ∧ allocated (sample_based corrupted) (sys_stdout (sample_based corrupted))
  ∧ run build (sample_world corrupted)
    = (Raise (HostError "JSONDecodeError"), sample_after_build corrupted)
  ∧ sys_stdout sample_retry = sys_stdout (sample_after_build corrupted)
  ∧ run super_build sample_retry = (Ok tt, (run super_build sample_retry).2)
  ∧ sys_stdout (run super_build sample_retry).2 = sys_stdout sample_retry
  ∧ run build sample_retry = (Ok tt, (run build sample_retry).2)
  ∧ sys_stdout (run build sample_retry).2
    = StringIO (next_obj (sample_based corrupted))
  ∧ sys_stdout (run build sample_retry).2
    ≠ sys_stdout (sample_based corrupted).
Proof.
  split; [apply sample_super_build|]. split; [exact I|].
  split; [apply sample_build_corrupted|]. split; [exact sample_retry_stdout|].
  split; [exact sample_retry_super_build|].
  split; [exact sample_retry_based_stdout|].
  split; [exact sample_retry_build|].
  exact (stdout_stays_lost_after_failed_build _ _ _ _ _ _ _
           (sample_super_build corrupted) I sample_build_corrupted
           sample_retry_stdout sample_retry_super_build
           sample_retry_based_stdout sample_retry_build).
Defined.

(** X12 on the sample installation. *)
Lemma build_returns_when_artifact_loads_witness :
  run super_build (sample_world installed) = (Ok tt, sample_based installed)
  ∧ files (sample_based installed) !! surrogate_path = Some sample_artifact
  ∧ PysmoSurrogate_load sample_artifact = Ok sample_surrogate
  ∧ has_var (sample_based installed) "heat"
  ∧ has_var (sample_based installed) "electricity"
  ∧ ∃ s',
      run build (sample_world installed) = (Ok tt, s')
      ∧ attrs (self s') !! "surrogate" = Some (ASurrogate sample_surrogate).
Proof.
  assert (Hh : has_var (sample_based installed) "heat")
    by (apply sample_based_has_base_vars, list_elem_of_In; cbn; tauto).
  assert (He : has_var (sample_based installed) "electricity")
    by (apply sample_based_has_base_vars, list_elem_of_In; cbn; tauto).
  split; [apply sample_super_build|]. split; [exact sample_installed_file|].
  split; [reflexivity|]. split; [exact Hh|]. split; [exact He|].
  destruct (build_returns_when_artifact_loads _ _ _ _
              (sample_super_build installed) sample_installed_file
              eq_refl eq_refl Hh He) as (s' & Hrun & Hsur & _).
  exists s'. split; [exact Hrun | exact Hsur].
Defined.

(** X13 on the sample block: the surrogate was trained on [heat_load] up
    to 800, and the guess of 1000 is left outside the bounds. *)
Lemma guess_within_surrogate_bounds_witness :
  run super_build (sample_world installed) = (Ok tt, sample_based installed)
  ∧ run build (sample_world installed) = (Ok tt, sample_built)
  ∧ attrs (self sample_built) !! "surrogate" = Some (ASurrogate sample_surrogate)
  ∧ ∃ v, attrs (self sample_built) !! "heat_load" = Some (AVar v)
         ∧ initialize v = Some 1000
         ∧ ¬ guess_within_bounds v.
Proof.
  split; [apply sample_super_build|]. split; [apply sample_build_installed|].
  split; [exact sample_built_surrogate|].
  destruct (guess_within_surrogate_bounds _ _ _ sample_surrogate _
              (sample_super_build installed) sample_build_installed
              sample_built_surrogate eq_refl 0%nat "heat_load" 1000 200 800)
    as (v & Hv & Hg & Hiff).
  - cbn. tauto.
  - reflexivity.
  - exists v. split; [exact Hv|]. split; [exact Hg|].
    intros H. apply Hiff in H as [_ H]. revert H. unfold Qle. cbn. lia.
Defined.

End MoreSample.
